(** * Reference-counted lifetime protocol of [skgpu::Resource]

    A shallow embedding of [experimental/graphite/src/Resource.h].

    - The two reference counts are [std::atomic<int32_t>]; they are modelled
      as [Z] with the two's-complement wrap-around of [fetch_add] written out.
    - [SkASSERT] and [SkDEBUGCODE] only exist in debug builds; every operation
      takes the build configuration [debug : bool] and returns a [result]
      that is [AssertFail] when an assertion fires.
    - The teardown destroys the entry: a sequence of calls, or a thread,
      that touches the entry afterwards ends in [UseAfterFree].
    - [freeGpuData] is a pure virtual callback; its invocations are counted
      in the [World] next to the resource.
    - [fUnrefMutex] is modelled twice: sequentially (a method body runs to
      completion) and, for the racing releases, by a small-step semantics of
      threads with an explicit lock bit. *)

From Stdlib Require Import ZArith Bool List Lia.
From stdpp Require Import base list.
Import ListNotations.
Local Open Scope Z_scope.

(** ** 32-bit signed atomics *)

Module Int32.

Definition min_signed : Z := -2147483648.
Definition max_signed : Z := 2147483647.
Definition modulus : Z := 4294967296.

(** Reduction of a mathematical integer to its [int32_t] representative. *)
Definition wrap (z : Z) : Z := (z - min_signed) mod modulus + min_signed.

Definition in_range (z : Z) : Prop := min_signed <= z <= max_signed.

(** [std::atomic<int32_t>::fetch_add]: the pair of the value read and the
    value stored. Atomic arithmetic on signed integers is two's complement
    and has no undefined results. *)
Definition fetch_add (cell delta : Z) : Z * Z := (cell, wrap (cell + delta)).

End Int32.

(** ** Assertions *)

(** A call returns, or stops at a failed assertion, or touches an entry that
    has been destroyed. *)
Inductive result (A : Type) : Type :=
| Ok (a : A)
| AssertFail
| UseAfterFree.
Arguments Ok {A} a.
Arguments AssertFail {A}.
Arguments UseAfterFree {A}.

Global Instance result_bind : MBind result := fun _ _ f m =>
  match m with
  | Ok a => f a
  | AssertFail => AssertFail
  | UseAfterFree => UseAfterFree
  end.

(** [SkASSERT(cond)]: checked in debug builds, compiled out otherwise. *)
Definition SkASSERT (debug cond : bool) : result unit :=
  if debug then (if cond then Ok tt else AssertFail) else Ok tt.

(** [enum class LastRemovedRef], as it is used by the header. *)
Inductive LastRemovedRef : Type :=
| kUsageRef
| kCommandBufferRef
| kCache.

Definition LastRemovedRef_is_kCache (removedRef : LastRemovedRef) : bool :=
  match removedRef with
  | kCache => true
  | _ => false
  end.

Section ResourceModel.

(** The collaborators are opaque to the header: a [Gpu], a key and a
    handle on the [ResourceCache]. *)
Context {Gpu GraphiteResourceKey ResourceCache : Type}.

(** The data members of [class Resource]. [fUnrefMutex] is not a field of
    the record: a sequential call holds it exactly for the duration of its
    locked block, and the thread semantics below carries the lock bit. *)
Record Resource : Type := mkResource {
  fCalledRemovedFromCache : bool;
  fGpu : option Gpu;
  fUsageRefCnt : Z;
  fCommandBufferRefCnt : Z;
  fKey : GraphiteResourceKey;
  fReturnCache : option ResourceCache;
  fCacheArrayIndex : Z;
  fTimestamp : Z
}.

Definition with_fCalledRemovedFromCache (b : bool) (r : Resource) : Resource :=
  mkResource b (fGpu r) (fUsageRefCnt r) (fCommandBufferRefCnt r) (fKey r)
             (fReturnCache r) (fCacheArrayIndex r) (fTimestamp r).

Definition with_fGpu (g : option Gpu) (r : Resource) : Resource :=
  mkResource (fCalledRemovedFromCache r) g (fUsageRefCnt r)
             (fCommandBufferRefCnt r) (fKey r) (fReturnCache r)
             (fCacheArrayIndex r) (fTimestamp r).

Definition with_fUsageRefCnt (n : Z) (r : Resource) : Resource :=
  mkResource (fCalledRemovedFromCache r) (fGpu r) n (fCommandBufferRefCnt r)
             (fKey r) (fReturnCache r) (fCacheArrayIndex r) (fTimestamp r).

Definition with_fCommandBufferRefCnt (n : Z) (r : Resource) : Resource :=
  mkResource (fCalledRemovedFromCache r) (fGpu r) (fUsageRefCnt r) n
             (fKey r) (fReturnCache r) (fCacheArrayIndex r) (fTimestamp r).

Definition with_fKey (k : GraphiteResourceKey) (r : Resource) : Resource :=
  mkResource (fCalledRemovedFromCache r) (fGpu r) (fUsageRefCnt r)
             (fCommandBufferRefCnt r) k (fReturnCache r)
             (fCacheArrayIndex r) (fTimestamp r).

Definition with_fReturnCache (c : option ResourceCache) (r : Resource) : Resource :=
  mkResource (fCalledRemovedFromCache r) (fGpu r) (fUsageRefCnt r)
             (fCommandBufferRefCnt r) (fKey r) c
             (fCacheArrayIndex r) (fTimestamp r).

Definition with_fCacheArrayIndex (i : Z) (r : Resource) : Resource :=
  mkResource (fCalledRemovedFromCache r) (fGpu r) (fUsageRefCnt r)
             (fCommandBufferRefCnt r) (fKey r) (fReturnCache r) i
             (fTimestamp r).

Definition with_fTimestamp (ts : Z) (r : Resource) : Resource :=
  mkResource (fCalledRemovedFromCache r) (fGpu r) (fUsageRefCnt r)
             (fCommandBufferRefCnt r) (fKey r) (fReturnCache r)
             (fCacheArrayIndex r) ts.

(** The resource together with the observable effect of disposal: the
    number of times the backend's [freeGpuData] has been invoked. *)
Record World : Type := mkWorld {
  res : Resource;
  freeGpuDataCalls : nat
}.

Definition with_res (r : Resource) (w : World) : World :=
  mkWorld r (freeGpuDataCalls w).

(** Modelled from the spec: the decision of the return target, which is
    the cache's and outside of this class: whether the cache, asked on the
    release of the last reference of the given kind, takes the entry back
    for reuse instead of letting it be destroyed. *)
Variable cacheReclaims : ResourceCache -> Resource -> LastRemovedRef -> bool.

(** *** Private queries *)

Definition hasUsageRef (r : Resource) : bool :=
  if 0 =? fUsageRefCnt r then false else true.

Definition hasCommandBufferRef (r : Resource) : bool :=
  if 0 =? fCommandBufferRefCnt r then false else true.

Definition hasAnyRefs (r : Resource) : bool :=
  hasUsageRef r || hasCommandBufferRef r.

Definition wasDestroyed (r : Resource) : bool :=
  match fGpu r with
  | None => true
  | Some _ => false
  end.

(** *** Members whose bodies live outside the header *)

(** Modelled from the spec: the constructor of [Resource], whose
    body is not in the header. An entry is created with a usage count of
    zero, not yet tracked by any cache, its native payload constructed.
    [fCalledRemovedFromCache] starts as [false] (its initializer is in the
    header); key, index and timestamp are not initialised by anything the
    spec names and are taken as given. *)
Definition Resource_new (gpu : Gpu) (key : GraphiteResourceKey)
           (index ts : Z) : Resource :=
  mkResource false (Some gpu) 0 0 key None index ts.

(** Modelled from the spec: whether the entry is handed back to its return
    target instead of being destroyed. The return target reclaims an entry
    whose counts reach zero through a normal release, as opposed to the
    cache's own removal of the entry, when the cache still wants to retain
    it; it does not reclaim an entry whose removal from the cache has
    already been recorded. An entry without a return target is not
    reclaimed. The header keeps the record of the removal,
    [fCalledRemovedFromCache], in debug builds only; in a release build it
    stays [false] and the answer of the return target is all there is. *)
Definition reclaimedByCache (r : Resource) (removedRef : LastRemovedRef) : bool :=
  if LastRemovedRef_is_kCache removedRef then false
  else if fCalledRemovedFromCache r then false
  else match fReturnCache r with
       | Some cache => cacheReclaims cache r removedRef
       | None => false
       end.

(** Modelled from the spec: the cache has relinquished the entry. It does
    so by removing it ([removedFromCache], now or recorded earlier), and it
    has no hold on an entry that is not handed back to it. *)
Definition cacheHasRelinquished (r : Resource) (removedRef : LastRemovedRef)
  : bool :=
  negb (reclaimedByCache r removedRef).

(** Modelled from the spec: [notifyARefIsZero], declared in the header and
    defined elsewhere. Called under [fUnrefMutex] when a release has seen
    its counter reach zero, or when the cache lets go of the entry; it
    answers whether the caller must run the teardown: the disposal has not
    been triggered already, both counters are zero, and the cache has
    relinquished the entry. *)
Definition notifyARefIsZero (r : Resource) (removedRef : LastRemovedRef) : bool :=
  if wasDestroyed r then false
  else if hasAnyRefs r then false
  else cacheHasRelinquished r removedRef.

(** Modelled from the spec: [internalDispose], declared in the header and
    defined elsewhere. It invokes the backend callback [freeGpuData] once,
    clears [fGpu] (the header's comment on [fGpu]) and destroys the entry.
    The record that remains stands for the freed memory: [wasDestroyed]
    holds of it for good, and [alive] refuses every later access. *)
Definition internalDispose (w : World) : World :=
  mkWorld (with_fGpu None (res w)) (S (freeGpuDataCalls w)).

(** Modelled from the spec: after the teardown the entry is destroyed and
    must not be accessed again; an access to a destroyed entry is a use
    after free. *)
Definition alive (w : World) : result unit :=
  if wasDestroyed (res w) then UseAfterFree else Ok tt.

(** Modelled from the spec: [isPurgeable], declared in the header and
    defined elsewhere: true iff the usage count is zero. *)
Definition isPurgeable (r : Resource) : bool :=
  negb (hasUsageRef r).

(** Modelled from the spec: [registerWithCache], declared in the header
    and defined elsewhere: it stores the return target. *)
Definition registerWithCache (cache : ResourceCache) (r : Resource) : Resource :=
  with_fReturnCache (Some cache) r.

(** *** Public interface *)

Definition ref (debug : bool) (r : Resource) : result Resource :=
  _ ← SkASSERT debug (hasUsageRef r);
  let '(_, cnt) := Int32.fetch_add (fUsageRefCnt r) 1 in
  Ok (with_fUsageRefCnt cnt r).

Definition unref (debug : bool) (w : World) : result World :=
  (* locked block *)
  _ ← SkASSERT debug (hasUsageRef (res w));
  let '(old, cnt) := Int32.fetch_add (fUsageRefCnt (res w)) (-1) in
  let r := with_fUsageRefCnt cnt (res w) in
  let shouldFree := if 1 =? old then notifyARefIsZero r kUsageRef else false in
  (* end of locked block *)
  Ok (if shouldFree then internalDispose (with_res r w) else with_res r w).

Definition refCommandBuffer (r : Resource) : Resource :=
  let '(_, cnt) := Int32.fetch_add (fCommandBufferRefCnt r) 1 in
  with_fCommandBufferRefCnt cnt r.

Definition unrefCommandBuffer (debug : bool) (w : World) : result World :=
  (* locked block *)
  _ ← SkASSERT debug (hasCommandBufferRef (res w));
  let '(old, cnt) := Int32.fetch_add (fCommandBufferRefCnt (res w)) (-1) in
  let r := with_fCommandBufferRefCnt cnt (res w) in
  let shouldFree :=
    if 1 =? old then notifyARefIsZero r kCommandBufferRef else false in
  (* end of locked block *)
  Ok (if shouldFree then internalDispose (with_res r w) else with_res r w).

Definition key (r : Resource) : GraphiteResourceKey := fKey r.

Definition setKey (k : GraphiteResourceKey) (r : Resource) : Resource :=
  with_fKey k r.

(** *** Interface of the [ResourceCache] *)

Definition refCacheOnly (debug : bool) (r : Resource) : result Resource :=
  _ ← SkASSERT debug (0 <=? fUsageRefCnt r);
  let '(_, cnt) := Int32.fetch_add (fUsageRefCnt r) 1 in
  Ok (with_fUsageRefCnt cnt r).

(** [accessCacheIndex] returns a pointer to the mutable index; the cache
    reads and writes through it. *)
Definition accessCacheIndex_load (r : Resource) : Z := fCacheArrayIndex r.
Definition accessCacheIndex_store (i : Z) (r : Resource) : Resource :=
  with_fCacheArrayIndex i r.

Definition timestamp (r : Resource) : Z := fTimestamp r.
Definition setTimestamp (ts : Z) (r : Resource) : Resource :=
  with_fTimestamp ts r.

Definition removedFromCache (debug : bool) (w : World) : result World :=
  (* locked block *)
  _ ← SkASSERT debug (negb (fCalledRemovedFromCache (res w)));
  let r := if debug then with_fCalledRemovedFromCache true (res w) else res w in
  let shouldFree := notifyARefIsZero r kCache in
  (* end of locked block *)
  Ok (if shouldFree then internalDispose (with_res r w) else with_res r w).


(** *** Sequences of calls on one resource *)

Inductive Op : Type :=
| OpRef
| OpUnref
| OpRefCommandBuffer
| OpUnrefCommandBuffer
| OpSetKey (k : GraphiteResourceKey)
| OpRefCacheOnly
| OpStoreCacheIndex (i : Z)
| OpSetTimestamp (ts : Z)
| OpRegisterWithCache (cache : ResourceCache)
| OpRemovedFromCache.

Definition step (debug : bool) (w : World) (op : Op) : result World :=
  match op with
  | OpRef => r ← ref debug (res w); Ok (with_res r w)
  | OpUnref => unref debug w
  | OpRefCommandBuffer => Ok (with_res (refCommandBuffer (res w)) w)
  | OpUnrefCommandBuffer => unrefCommandBuffer debug w
  | OpSetKey k => Ok (with_res (setKey k (res w)) w)
  | OpRefCacheOnly => r ← refCacheOnly debug (res w); Ok (with_res r w)
  | OpStoreCacheIndex i => Ok (with_res (accessCacheIndex_store i (res w)) w)
  | OpSetTimestamp ts => Ok (with_res (setTimestamp ts (res w)) w)
  | OpRegisterWithCache cache => Ok (with_res (registerWithCache cache (res w)) w)
  | OpRemovedFromCache => removedFromCache debug w
  end.

(** A sequence of calls on the entry. Each call needs the entry to be
    there; what the call itself does is [step]. *)
Fixpoint run (debug : bool) (w : World) (ops : list Op) : result World :=
  match ops with
  | [] => Ok w
  | op :: ops' => _ ← alive w; w' ← step debug w op; run debug w' ops'
  end.

(** The four acquire and release calls. *)
Definition is_acquire_release (op : Op) : bool :=
  match op with
  | OpRef | OpUnref | OpRefCommandBuffer | OpUnrefCommandBuffer => true
  | _ => false
  end.

(** The two writes the cache makes to its own bookkeeping. *)
Definition is_bookkeeping_store (op : Op) : bool :=
  match op with
  | OpStoreCacheIndex _ | OpSetTimestamp _ => true
  | _ => false
  end.

Definition is_setKey (op : Op) : bool :=
  match op with
  | OpSetKey _ => true
  | _ => false
  end.


(** *** Racing releases

    Each thread executes one call of [unref] or [unrefCommandBuffer]. The
    program counter follows the statements of the method body: taking
    [fUnrefMutex], the assertion, the [fetch_add], the call of
    [notifyARefIsZero] (only when the value read was 1), leaving the
    locked block, and the test of [shouldFree] outside of it. *)

Inductive Release : Type :=
| CallUnref
| CallUnrefCommandBuffer.

Definition hasRef_of (c : Release) (r : Resource) : bool :=
  match c with
  | CallUnref => hasUsageRef r
  | CallUnrefCommandBuffer => hasCommandBufferRef r
  end.

Definition counter_of (c : Release) (r : Resource) : Z :=
  match c with
  | CallUnref => fUsageRefCnt r
  | CallUnrefCommandBuffer => fCommandBufferRefCnt r
  end.

Definition with_counter (c : Release) (n : Z) (r : Resource) : Resource :=
  match c with
  | CallUnref => with_fUsageRefCnt n r
  | CallUnrefCommandBuffer => with_fCommandBufferRefCnt n r
  end.

Definition removedRef_of (c : Release) : LastRemovedRef :=
  match c with
  | CallUnref => kUsageRef
  | CallUnrefCommandBuffer => kCommandBufferRef
  end.

Inductive PC : Type :=
| AtLock
| AtAssert
| AtFetchAdd
| AtNotify
| AtUnlock (shouldFree : bool)
| AtDispose (shouldFree : bool)
| Returned (shouldFree : bool).

Record Thread : Type := mkThread {
  call : Release;
  pc : PC
}.

Record Config : Type := mkConfig {
  world : World;
  fUnrefMutex : bool;
  threads : list Thread
}.

Definition goto (i : nat) (t : Thread) (next : PC) (ts : list Thread)
  : list Thread :=
  <[i := mkThread (call t) next]> ts.

(** The statement thread [t], the thread of index [i], is at, as the method
    body has it. A thread that waits for the mutex and a thread that has
    returned leave the configuration as it is. *)
Definition thread_action (debug : bool) (cfg : Config) (i : nat) (t : Thread)
  : result Config :=
  let w := world cfg in
  match pc t with
  | AtLock =>
    if fUnrefMutex cfg then Ok cfg
    else Ok (mkConfig w true (goto i t AtAssert (threads cfg)))
  | AtAssert =>
    _ ← SkASSERT debug (hasRef_of (call t) (res w));
    Ok (mkConfig w (fUnrefMutex cfg) (goto i t AtFetchAdd (threads cfg)))
  | AtFetchAdd =>
    let '(old, cnt) := Int32.fetch_add (counter_of (call t) (res w)) (-1) in
    let w' := with_res (with_counter (call t) cnt (res w)) w in
    let next := if 1 =? old then AtNotify else AtUnlock false in
    Ok (mkConfig w' (fUnrefMutex cfg) (goto i t next (threads cfg)))
  | AtNotify =>
    let shouldFree := notifyARefIsZero (res w) (removedRef_of (call t)) in
    Ok (mkConfig w (fUnrefMutex cfg)
                 (goto i t (AtUnlock shouldFree) (threads cfg)))
  | AtUnlock shouldFree =>
    Ok (mkConfig w false (goto i t (AtDispose shouldFree) (threads cfg)))
  | AtDispose shouldFree =>
    let w' := if shouldFree then internalDispose w else w in
    Ok (mkConfig w' (fUnrefMutex cfg)
                 (goto i t (Returned shouldFree) (threads cfg)))
  | Returned _ => Ok cfg
  end.

(** Whether the statement a thread is at reads or writes the entry: every
    statement of the locked block and the taking of the mutex do, and so
    does the call of [internalDispose]; the test of a [shouldFree] that is
    false does not. *)
Definition accesses_entry (t : Thread) : bool :=
  match pc t with
  | AtDispose shouldFree => shouldFree
  | Returned _ => false
  | _ => true
  end.

(** One atomic action of thread [i]: its statement, unless the statement
    accesses an entry that has been destroyed. An index that names no
    thread leaves the configuration as it is. *)
Definition thread_step (debug : bool) (cfg : Config) (i : nat) : result Config :=
  match threads cfg !! i with
  | None => Ok cfg
  | Some t =>
    if accesses_entry t && wasDestroyed (res (world cfg)) then UseAfterFree
    else thread_action debug cfg i t
  end.

(** An interleaving is the list of the threads chosen to move. *)
Fixpoint exec (debug : bool) (cfg : Config) (schedule : list nat)
  : result Config :=
  match schedule with
  | [] => Ok cfg
  | i :: schedule' => cfg' ← thread_step debug cfg i; exec debug cfg' schedule'
  end.

Definition has_returned (t : Thread) : bool :=
  match pc t with
  | Returned _ => true
  | _ => false
  end.

(** Whether a thread's call has been told that it must run the teardown. *)
Definition told_to_free (t : Thread) : bool :=
  match pc t with
  | AtUnlock b | AtDispose b | Returned b => b
  | _ => false
  end.

(** *** Counting threads *)

Fixpoint tally (f : Thread -> bool) (ts : list Thread) : Z :=
  match ts with
  | [] => 0
  | t :: ts' => Z.b2z (f t) + tally f ts'
  end.

Definition same_call (c c' : Release) : bool :=
  match c, c' with
  | CallUnref, CallUnref => true
  | CallUnrefCommandBuffer, CallUnrefCommandBuffer => true
  | _, _ => false
  end.

(** A call of kind [c] that has not yet decremented its counter. *)
Definition awaiting (c : Release) (t : Thread) : bool :=
  same_call c (call t) &&
  match pc t with
  | AtLock | AtAssert | AtFetchAdd => true
  | _ => false
  end.

(** A call of kind [c] that is about to call [notifyARefIsZero]. *)
Definition notifying (c : Release) (t : Thread) : bool :=
  same_call c (call t) &&
  match pc t with
  | AtNotify => true
  | _ => false
  end.

Definition in_locked_block (t : Thread) : bool :=
  match pc t with
  | AtAssert | AtFetchAdd | AtNotify | AtUnlock _ => true
  | _ => false
  end.

(** A call that has returned after running the teardown. *)
Definition has_disposed (t : Thread) : bool :=
  match pc t with
  | Returned b => b
  | _ => false
  end.

Definition about_to_start (t : Thread) : bool :=
  match pc t with
  | AtLock => true
  | _ => false
  end.

(** The number of steps a thread is at most away from its return. *)
Definition steps_left (p : PC) : nat :=
  match p with
  | AtLock => 6
  | AtAssert => 5
  | AtFetchAdd => 4
  | AtNotify => 3
  | AtUnlock _ => 2
  | AtDispose _ => 1
  | Returned _ => 0
  end.

Fixpoint work_left (ts : list Thread) : nat :=
  match ts with
  | [] => 0
  | t :: ts' => steps_left (pc t) + work_left ts'
  end.

(** The number of threads that execute the call [c]. *)
Definition calls_of (c : Release) (ts : list Thread) : Z :=
  tally (fun t => same_call c (call t)) ts.


(** *** Well-formed call sequences *)

(** Every release is preceded by a matching acquire: [u] and [c] are the
    usage and command-buffer references outstanding before [ops]. *)
Fixpoint releases_matched (u c : Z) (ops : list Op) : bool :=
  match ops with
  | [] => true
  | op :: ops' =>
    match op with
    | OpRef | OpRefCacheOnly => releases_matched (u + 1) c ops'
    | OpUnref => (1 <=? u) && releases_matched (u - 1) c ops'
    | OpRefCommandBuffer => releases_matched u (c + 1) ops'
    | OpUnrefCommandBuffer => (1 <=? c) && releases_matched u (c - 1) ops'
    | _ => releases_matched u c ops'
    end
  end.

(** No acquire is made on a counter that already holds [INT32_MAX]. *)
Fixpoint holders_fit (u c : Z) (ops : list Op) : bool :=
  match ops with
  | [] => true
  | op :: ops' =>
    match op with
    | OpRef | OpRefCacheOnly =>
      (u <? Int32.max_signed) && holders_fit (u + 1) c ops'
    | OpUnref => holders_fit (u - 1) c ops'
    | OpRefCommandBuffer =>
      (c <? Int32.max_signed) && holders_fit u (c + 1) ops'
    | OpUnrefCommandBuffer => holders_fit u (c - 1) ops'
    | _ => holders_fit u c ops'
    end
  end.

(** Both counters are non-negative [int32_t] values. *)
Definition counts_fit (w : World) : Prop :=
  0 <= fUsageRefCnt (res w) <= Int32.max_signed /\
  0 <= fCommandBufferRefCnt (res w) <= Int32.max_signed.

(** *** Threads and the resource they share *)

(** A thread that still has a statement to execute that reads or writes the
    resource (its mutex included): everything before the test of
    [shouldFree]. *)
Definition touches_resource (t : Thread) : bool :=
  match pc t with
  | AtDispose _ | Returned _ => false
  | _ => true
  end.

(** A thread that has left the locked block with [shouldFree] set: it is
    about to call [internalDispose] or has called it. *)
Definition runs_teardown (t : Thread) : bool :=
  match pc t with
  | AtDispose b | Returned b => b
  | _ => false
  end.

(** The mutex is held exactly by the threads inside a locked block. *)
Definition lock_discipline (cfg : Config) : Prop :=
  Z.b2z (fUnrefMutex cfg) = tally in_locked_block (threads cfg).

(** Once a thread runs the teardown, no thread is inside a locked block. *)
Definition teardown_unlocked (cfg : Config) : Prop :=
  1 <= tally runs_teardown (threads cfg) ->
  tally in_locked_block (threads cfg) = 0.

(** *** Reachable configurations of the race *)

(** Inside the locked block, at another statement than the arbitration. *)
Definition locked_elsewhere (t : Thread) : bool :=
  match pc t with
  | AtAssert | AtFetchAdd | AtUnlock _ => true
  | _ => false
  end.

Definition pending_dispose (t : Thread) : bool :=
  match pc t with
  | AtUnlock b | AtDispose b => b
  | _ => false
  end.

(** What holds of every configuration that the racing releases can reach:
    each counter equals the number of calls that have yet to decrement it;
    the mutex is held exactly when one thread is inside a locked block; a
    thread about to call [notifyARefIsZero] has seen its counter reach zero;
    at most one call has been told to free, and only once both counters are
    zero; [freeGpuData] has been called once per call that has disposed;
    the entry is destroyed only by a call that has disposed; once a thread
    runs the teardown, no thread is inside a locked block. *)
Definition race_invariant (g0 : nat) (rc : option ResourceCache) (cfg : Config)
  : Prop :=
  let r := res (world cfg) in
  let ts := threads cfg in
  let notifiers :=
    tally (notifying CallUnref) ts + tally (notifying CallUnrefCommandBuffer) ts in
  fReturnCache r = rc /\
  fUsageRefCnt r = tally (awaiting CallUnref) ts /\
  fCommandBufferRefCnt r = tally (awaiting CallUnrefCommandBuffer) ts /\
  fUsageRefCnt r <= Int32.max_signed /\
  fCommandBufferRefCnt r <= Int32.max_signed /\
  Z.b2z (fUnrefMutex cfg) = tally in_locked_block ts /\
  notifiers + tally locked_elsewhere ts = tally in_locked_block ts /\
  (1 <= tally (notifying CallUnref) ts -> fUsageRefCnt r = 0) /\
  (1 <= tally (notifying CallUnrefCommandBuffer) ts ->
   fCommandBufferRefCnt r = 0) /\
  tally told_to_free ts <= 1 /\
  (1 <= tally told_to_free ts ->
   fUsageRefCnt r = 0 /\ fCommandBufferRefCnt r = 0 /\ notifiers = 0) /\
  tally told_to_free ts = tally has_disposed ts + tally pending_dispose ts /\
  Z.of_nat (freeGpuDataCalls (world cfg)) =
  Z.of_nat g0 + tally has_disposed ts /\
  (fGpu r = None -> 1 <= tally has_disposed ts) /\
  teardown_unlocked cfg.

(** *** Bookkeeping over call sequences *)

Definition usage_delta (op : Op) : Z :=
  match op with
  | OpRef | OpRefCacheOnly => 1
  | OpUnref => -1
  | _ => 0
  end.

Definition commandBuffer_delta (op : Op) : Z :=
  match op with
  | OpRefCommandBuffer => 1
  | OpUnrefCommandBuffer => -1
  | _ => 0
  end.

(** Acquisitions minus releases of a sequence, per counter. *)
Fixpoint net_usage (ops : list Op) : Z :=
  match ops with
  | [] => 0
  | op :: ops' => usage_delta op + net_usage ops'
  end.

Fixpoint net_commandBuffer (ops : list Op) : Z :=
  match ops with
  | [] => 0
  | op :: ops' => commandBuffer_delta op + net_commandBuffer ops'
  end.

(** The calls a client makes through [sk_sp]: [ref] and [unref]. *)
Definition is_ref_or_unref (op : Op) : bool :=
  match op with
  | OpRef | OpUnref => true
  | _ => false
  end.

Definition is_refCacheOnly (op : Op) : bool :=
  match op with
  | OpRefCacheOnly => true
  | _ => false
  end.

Definition is_removedFromCache (op : Op) : bool :=
  match op with
  | OpRemovedFromCache => true
  | _ => false
  end.

(** The conditions of the [SkASSERT]s of each call, read on the state the
    call is made in. *)
Definition asserted (w : World) (op : Op) : bool :=
  match op with
  | OpRef | OpUnref => negb (fUsageRefCnt (res w) =? 0)
  | OpUnrefCommandBuffer => negb (fCommandBufferRefCnt (res w) =? 0)
  | OpRefCacheOnly => 0 <=? fUsageRefCnt (res w)
  | OpRemovedFromCache => negb (fCalledRemovedFromCache (res w))
  | _ => true
  end.

(** The argument of the last [setKey] of a sequence, [k0] if there is none;
    likewise for [setTimestamp] and for the stores through
    [accessCacheIndex]. *)
Fixpoint last_setKey (k0 : GraphiteResourceKey) (ops : list Op)
  : GraphiteResourceKey :=
  match ops with
  | [] => k0
  | OpSetKey k :: ops' => last_setKey k ops'
  | _ :: ops' => last_setKey k0 ops'
  end.

Fixpoint last_setTimestamp (ts0 : Z) (ops : list Op) : Z :=
  match ops with
  | [] => ts0
  | OpSetTimestamp ts :: ops' => last_setTimestamp ts ops'
  | _ :: ops' => last_setTimestamp ts0 ops'
  end.

Fixpoint last_storeCacheIndex (i0 : Z) (ops : list Op) : Z :=
  match ops with
  | [] => i0
  | OpStoreCacheIndex i :: ops' => last_storeCacheIndex i ops'
  | _ :: ops' => last_storeCacheIndex i0 ops'
  end.

(** *** The order of the decrements *)

Definition is_release (op : Op) : bool :=
  match op with
  | OpUnref | OpUnrefCommandBuffer => true
  | _ => false
  end.

(** The entry once every reference has been released. *)
Definition fully_released (r : Resource) : Resource :=
  with_fUsageRefCnt 0 (with_fCommandBufferRefCnt 0 r).

Definition op_of_call (c : Release) : Op :=
  match c with
  | CallUnref => OpUnref
  | CallUnrefCommandBuffer => OpUnrefCommandBuffer
  end.

(** The call whose [fetch_add] thread [i] is about to execute, if that is
    the statement it is at. *)
Definition decrements (cfg : Config) (i : nat) : list Op :=
  match threads cfg !! i with
  | Some t =>
    match pc t with
    | AtFetchAdd => [op_of_call (call t)]
    | _ => []
    end
  | None => []
  end.

(** The calls of an interleaving in the order of their [fetch_add]s. *)
Fixpoint decrement_order (debug : bool) (cfg : Config) (schedule : list nat)
  : list Op :=
  match schedule with
  | [] => []
  | i :: schedule' =>
    decrements cfg i ++
    match thread_step debug cfg i with
    | Ok cfg' => decrement_order debug cfg' schedule'
    | AssertFail | UseAfterFree => []
    end
  end.

(** How the state [w] of the sequential run of the calls that have
    decremented relates to a configuration: the sequential call has already
    taken the decision and run the teardown that the thread between its
    [fetch_add] and its test of [shouldFree] has yet to take and run. *)
Definition linearized (cfg : Config) (w : World) : Prop :=
  let ts := threads cfg in
  (tally (notifying CallUnref) ts = 0 ->
   tally (notifying CallUnrefCommandBuffer) ts = 0 ->
   tally pending_dispose ts = 0 ->
   w = world cfg) /\
  (1 <= tally (notifying CallUnref) ts ->
   w = if notifyARefIsZero (res (world cfg)) kUsageRef
       then internalDispose (world cfg) else world cfg) /\
  (1 <= tally (notifying CallUnrefCommandBuffer) ts ->
   w = if notifyARefIsZero (res (world cfg)) kCommandBufferRef
       then internalDispose (world cfg) else world cfg) /\
  (1 <= tally pending_dispose ts ->
   w = internalDispose (world cfg)).

(** ** Properties *)

Lemma wrap_in_range (z : Z) : Int32.in_range z -> Int32.wrap z = z.
Proof.
  unfold Int32.in_range, Int32.wrap, Int32.min_signed, Int32.max_signed,
    Int32.modulus.
  intros Hz. rewrite Z.mod_small; lia.
Qed.

Lemma wrap_succ (z : Z) :
  Int32.min_signed <= z < Int32.max_signed -> Int32.wrap (z + 1) = z + 1.
Proof.
  intros Hz. apply wrap_in_range. unfold Int32.in_range. lia.
Qed.

Lemma wrap_pred (z : Z) :
  Int32.min_signed < z <= Int32.max_signed -> Int32.wrap (z + -1) = z - 1.
Proof.
  intros Hz. rewrite wrap_in_range; [lia|]. unfold Int32.in_range. lia.
Qed.

Lemma hasUsageRef_true (r : Resource) :
  hasUsageRef r = true <-> fUsageRefCnt r <> 0.
Proof.
  unfold hasUsageRef. destruct (Z.eqb_spec 0 (fUsageRefCnt r)); split;
    intros; try congruence; try lia.
Qed.

Lemma hasCommandBufferRef_true (r : Resource) :
  hasCommandBufferRef r = true <-> fCommandBufferRefCnt r <> 0.
Proof.
  unfold hasCommandBufferRef.
  destruct (Z.eqb_spec 0 (fCommandBufferRefCnt r)); split;
    intros; try congruence; try lia.
Qed.

(** A sequence runs its first call on an entry that is there. *)
Lemma run_cons_alive (debug : bool) (w : World) (op : Op) (ops : list Op) :
  wasDestroyed (res w) = false ->
  run debug w (op :: ops) = (w1 ← step debug w op; run debug w1 ops).
Proof.
  intros Hw. cbn [run]. unfold alive. rewrite Hw. reflexivity.
Qed.

Lemma run_cons_Ok (debug : bool) (w w' : World) (op : Op) (ops : list Op) :
  run debug w (op :: ops) = Ok w' ->
  wasDestroyed (res w) = false /\
  exists w1, step debug w op = Ok w1 /\ run debug w1 ops = Ok w'.
Proof.
  cbn [run]. unfold alive. destruct (wasDestroyed (res w)); [discriminate|].
  cbn [mbind result_bind].
  destruct (step debug w op) as [w1| |]; try discriminate.
  intros Hrun. split; [reflexivity|]. exists w1. split; [reflexivity|exact Hrun].
Qed.

(** C3. [isPurgeable] is true exactly when the usage count is zero, and its
    answer does not depend on the command-buffer count: changing that count
    to any value leaves the answer as it is. *)
Theorem isPurgeable_iff_no_usage_ref :
  forall r : Resource,
    (isPurgeable r = true <-> fUsageRefCnt r = 0) /\
    (forall n, isPurgeable (with_fCommandBufferRefCnt n r) = isPurgeable r).
Proof.
  intros r. split.
  - unfold isPurgeable. rewrite negb_true_iff.
    unfold hasUsageRef. destruct (Z.eqb_spec 0 (fUsageRefCnt r)); split;
      intros; try congruence; try lia.
  - intros n. reflexivity.
Qed.

(** The header's own [hasAnyRefs] is a different predicate: an entry that is
    held by a command buffer only is purgeable and has references. *)
Lemma isPurgeable_is_not_negb_hasAnyRefs :
  forall r : Resource,
    fUsageRefCnt r = 0 -> fCommandBufferRefCnt r <> 0 ->
    isPurgeable r = true /\ negb (hasAnyRefs r) = false.
Proof.
  intros r Hu Hc. apply hasCommandBufferRef_true in Hc.
  unfold isPurgeable, hasAnyRefs. rewrite Hc.
  unfold hasUsageRef. rewrite Hu. split; reflexivity.
Qed.

(** [ref] on a non-negative count below [INT32_MAX], in both builds. *)
Lemma ref_counted (debug : bool) (r : Resource) :
  0 <= fUsageRefCnt r < Int32.max_signed ->
  ref debug r =
  if debug && (fUsageRefCnt r =? 0) then AssertFail
  else Ok (with_fUsageRefCnt (fUsageRefCnt r + 1) r).
Proof.
  intros Hr. unfold ref, SkASSERT, hasUsageRef, Int32.fetch_add.
  rewrite wrap_succ by (unfold Int32.min_signed; lia).
  rewrite (Z.eqb_sym 0). destruct debug, (fUsageRefCnt r =? 0); reflexivity.
Qed.

(** C4 (amended). In a debug build [ref] on a usage count of zero fails its
    assertion; on a count from 1 up to, but excluding, [INT32_MAX] it
    succeeds in every build and leaves the resource as it was except for the
    usage count, which is larger by exactly 1. *)
Theorem ref_requires_usage_ref :
  forall (debug : bool) (r : Resource),
    0 <= fUsageRefCnt r < Int32.max_signed ->
    ref debug r =
    if debug && (fUsageRefCnt r =? 0) then AssertFail
    else Ok (with_fUsageRefCnt (fUsageRefCnt r + 1) r).
Proof.
  intros debug r Hr. exact (ref_counted debug r Hr).
Qed.

(** C6 (amended). [refCacheOnly] on a usage count from 0 up to, but
    excluding, [INT32_MAX] passes its assertion in every build and raises the
    usage count by exactly 1; at a count of zero it thereby grants the first
    usage reference, where [ref] fails its assertion in a debug build. *)
Theorem refCacheOnly_grants_first_ref :
  forall (debug : bool) (r : Resource),
    0 <= fUsageRefCnt r < Int32.max_signed ->
    refCacheOnly debug r = Ok (with_fUsageRefCnt (fUsageRefCnt r + 1) r) /\
    ref true r =
    if fUsageRefCnt r =? 0 then AssertFail
    else Ok (with_fUsageRefCnt (fUsageRefCnt r + 1) r).
Proof.
  intros debug r Hr. split.
  - unfold refCacheOnly, SkASSERT, Int32.fetch_add.
    rewrite wrap_succ by (unfold Int32.min_signed; lia).
    destruct (Z.leb_spec 0 (fUsageRefCnt r)); [|lia].
    destruct debug; reflexivity.
  - rewrite ref_counted by exact Hr. reflexivity.
Qed.

(** C7 (amended). [refCommandBuffer] checks nothing: it is a total function
    and, on a command-buffer count below [INT32_MAX] (zero included), raises
    the count by exactly 1. [unrefCommandBuffer] asserts that the count is
    not zero: in a debug build it fails exactly on a count of zero, so among
    the non-negative counts it requires a count of at least 1. *)
Theorem refCommandBuffer_has_no_precondition :
  forall w : World,
    Int32.min_signed <= fCommandBufferRefCnt (res w) < Int32.max_signed ->
    refCommandBuffer (res w) =
    with_fCommandBufferRefCnt (fCommandBufferRefCnt (res w) + 1) (res w) /\
    (unrefCommandBuffer true w = AssertFail <->
     fCommandBufferRefCnt (res w) = 0).
Proof.
  intros w Hc. split.
  - unfold refCommandBuffer, Int32.fetch_add. rewrite wrap_succ by exact Hc.
    reflexivity.
  - unfold unrefCommandBuffer, SkASSERT, hasCommandBufferRef.
    destruct (Z.eqb_spec 0 (fCommandBufferRefCnt (res w))) as [E|E]; simpl.
    + split; [lia | reflexivity].
    + split; [discriminate | lia].
Qed.

(** Every call other than the two stores of the cache leaves the cache's
    bookkeeping alone. *)
Lemma step_preserves_bookkeeping (debug : bool) (w w' : World) (op : Op) :
  is_bookkeeping_store op = false ->
  step debug w op = Ok w' ->
  fCacheArrayIndex (res w') = fCacheArrayIndex (res w) /\
  fTimestamp (res w') = fTimestamp (res w).
Proof.
  intros Hop Hstep. destruct op; simpl in Hop; try discriminate;
    unfold step, ref, unref, unrefCommandBuffer, refCacheOnly,
      removedFromCache, refCommandBuffer, Int32.fetch_add in Hstep;
    repeat match type of Hstep with
           | context [SkASSERT ?d ?c] => destruct (SkASSERT d c)
           end;
    simpl in Hstep; try discriminate;
    repeat match type of Hstep with
           | context [if ?b then _ else _] => destruct b
           end;
    injection Hstep as <-; split; reflexivity.
Qed.

(** C9. [ref], [unref], [refCommandBuffer] and [unrefCommandBuffer] never
    write the cache index or the timestamp: after any of them has returned,
    both fields hold what they held before. The same is true of every call
    that is not one of the two stores the cache makes through
    [accessCacheIndex] and [setTimestamp]. *)
Theorem acquire_release_keep_cache_bookkeeping :
  forall (debug : bool) (w w' : World) (op : Op),
    is_acquire_release op = true \/ is_bookkeeping_store op = false ->
    step debug w op = Ok w' ->
    fCacheArrayIndex (res w') = fCacheArrayIndex (res w) /\
    fTimestamp (res w') = fTimestamp (res w).
Proof.
  intros debug w w' op Hop Hstep.
  apply (step_preserves_bookkeeping debug w w' op); [|exact Hstep].
  destruct Hop as [Hop|Hop]; [|exact Hop].
  destruct op; simpl in Hop; try discriminate; reflexivity.
Qed.

Lemma step_preserves_key (debug : bool) (w w' : World) (op : Op) :
  is_setKey op = false ->
  step debug w op = Ok w' ->
  key (res w') = key (res w).
Proof.
  intros Hop Hstep. destruct op; simpl in Hop; try discriminate;
    unfold step, ref, unref, unrefCommandBuffer, refCacheOnly,
      removedFromCache, refCommandBuffer, Int32.fetch_add in Hstep;
    repeat match type of Hstep with
           | context [SkASSERT ?d ?c] => destruct (SkASSERT d c)
           end;
    simpl in Hstep; try discriminate;
    repeat match type of Hstep with
           | context [if ?b then _ else _] => destruct b
           end;
    injection Hstep as <-; reflexivity.
Qed.

Lemma run_preserves_key (debug : bool) (ops : list Op) :
  forall w w' : World,
    forallb (fun op => negb (is_setKey op)) ops = true ->
    run debug w ops = Ok w' ->
    key (res w') = key (res w).
Proof.
  induction ops as [|op ops IH]; intros w w' Hops Hrun.
  - injection Hrun as <-. reflexivity.
  - simpl in Hops. apply andb_true_iff in Hops as [Hop Hops].
    apply negb_true_iff in Hop.
    apply run_cons_Ok in Hrun as [_ [w1 [Hstep Hrun]]].
    rewrite (IH w1 w' Hops Hrun).
    exact (step_preserves_key debug w w1 op Hop Hstep).
Qed.

(** C10. The key of an entry is set once, by [setKey], and never changes
    afterwards: after [setKey k], [key] returns [k] after every sequence of
    calls on the entry in which [setKey] is not called again. No other
    member writes the key. *)
Theorem key_is_kept_until_next_setKey :
  forall (debug : bool) (w w' : World) (k : GraphiteResourceKey) (ops : list Op),
    forallb (fun op => negb (is_setKey op)) ops = true ->
    run debug (with_res (setKey k (res w)) w) ops = Ok w' ->
    key (res w') = k.
Proof.
  intros debug w w' k ops Hops Hrun.
  rewrite (run_preserves_key debug ops _ w' Hops Hrun). reflexivity.
Qed.

Lemma step_keeps_removed_flag (debug : bool) (w w' : World) (op : Op) :
  step debug w op = Ok w' ->
  fCalledRemovedFromCache (res w) = true ->
  fCalledRemovedFromCache (res w') = true.
Proof.
  intros Hstep Hflag. destruct op;
    unfold step, ref, unref, unrefCommandBuffer, refCacheOnly,
      removedFromCache, refCommandBuffer, Int32.fetch_add in Hstep;
    repeat match type of Hstep with
           | context [SkASSERT ?d ?c] => destruct (SkASSERT d c)
           end;
    simpl in Hstep; try discriminate;
    repeat match type of Hstep with
           | context [if ?b then _ else _] => destruct b
           end;
    injection Hstep as <-; simpl; auto.
Qed.

Lemma run_keeps_removed_flag (debug : bool) (ops : list Op) :
  forall w w' : World,
    run debug w ops = Ok w' ->
    fCalledRemovedFromCache (res w) = true ->
    fCalledRemovedFromCache (res w') = true.
Proof.
  induction ops as [|op ops IH]; intros w w' Hrun Hflag.
  - injection Hrun as <-. exact Hflag.
  - apply run_cons_Ok in Hrun as [_ [w1 [Hstep Hrun]]].
    apply (IH w1 w' Hrun).
    exact (step_keeps_removed_flag debug w w1 op Hstep Hflag).
Qed.

(** C5. In a debug build, a call of [removedFromCache] that returns found
    [fCalledRemovedFromCache] false and leaves it true; the flag then stays
    true whatever is called on the resource afterwards, so it goes from
    false to true at most once, and any later call of [removedFromCache]
    fails the assertion that checks the flag. *)
Theorem removedFromCache_only_once :
  forall w1 w2 : World,
    removedFromCache true w1 = Ok w2 ->
    fCalledRemovedFromCache (res w1) = false /\
    fCalledRemovedFromCache (res w2) = true /\
    forall (ops : list Op) (w3 : World),
      run true w2 ops = Ok w3 ->
      fCalledRemovedFromCache (res w3) = true /\
      removedFromCache true w3 = AssertFail.
Proof.
  intros w1 w2 H12.
  assert (H1 : fCalledRemovedFromCache (res w1) = false).
  { unfold removedFromCache, SkASSERT in H12.
    destruct (fCalledRemovedFromCache (res w1)); [discriminate | reflexivity]. }
  assert (H2 : fCalledRemovedFromCache (res w2) = true).
  { unfold removedFromCache, SkASSERT in H12. rewrite H1 in H12.
    simpl in H12.
    match type of H12 with
    | context [if ?b then _ else _] => destruct b
    end; injection H12 as <-; reflexivity. }
  split; [exact H1 | split; [exact H2 |]].
  intros ops w3 Hrun.
  pose proof (run_keeps_removed_flag true ops w2 w3 Hrun H2) as H3.
  split; [exact H3 |].
  unfold removedFromCache, SkASSERT. rewrite H3. reflexivity.
Qed.

(** In a release build the flag does not exist and nothing detects a second
    call. *)
Lemma removedFromCache_release_build_unchecked (w : World) :
  exists w', removedFromCache false w = Ok w'.
Proof. unfold removedFromCache, SkASSERT. simpl. eauto. Qed.

(** An entry that is there and has no reference left is torn down unless
    it is handed back to its return target. *)
Lemma notifyARefIsZero_released (r : Resource) (removedRef : LastRemovedRef) :
  wasDestroyed r = false ->
  fUsageRefCnt r = 0 -> fCommandBufferRefCnt r = 0 ->
  notifyARefIsZero r removedRef = negb (reclaimedByCache r removedRef).
Proof.
  intros Hd Hu Hc.
  unfold notifyARefIsZero, cacheHasRelinquished, hasAnyRefs, hasUsageRef,
    hasCommandBufferRef.
  rewrite Hd, Hu, Hc. reflexivity.
Qed.

(** C2 (amended). On an entry that is there, with both counts at zero:
    [refCacheOnly] gives a usage count of 1, [ref] of 2, [refCommandBuffer] a
    command-buffer count of 1; the first [unref] gives a usage count of 1
    and the second of 0, both without calling [freeGpuData], and the entry
    is then purgeable; the final [unrefCommandBuffer] gives a
    command-buffer count of 0. What the final release does with the entry
    is the return target's decision: if the entry is handed back to its
    return target, [freeGpuData] is not called and the entry stays;
    otherwise (always so for an entry without return target)
    [freeGpuData] is called once, by this final release, and the entry is
    destroyed. *)
Theorem usage_then_command_buffer_release :
  forall (debug : bool) (w : World),
    fUsageRefCnt (res w) = 0 ->
    fCommandBufferRefCnt (res w) = 0 ->
    wasDestroyed (res w) = false ->
    exists w1 w2 w3 w4 w5 w6 : World,
      step debug w OpRefCacheOnly = Ok w1 /\
      fUsageRefCnt (res w1) = 1 /\
      step debug w1 OpRef = Ok w2 /\
      fUsageRefCnt (res w2) = 2 /\
      step debug w2 OpRefCommandBuffer = Ok w3 /\
      fCommandBufferRefCnt (res w3) = 1 /\
      step debug w3 OpUnref = Ok w4 /\
      fUsageRefCnt (res w4) = 1 /\
      freeGpuDataCalls w4 = freeGpuDataCalls w /\
      step debug w4 OpUnref = Ok w5 /\
      fUsageRefCnt (res w5) = 0 /\
      fCommandBufferRefCnt (res w5) = 1 /\
      isPurgeable (res w5) = true /\
      freeGpuDataCalls w5 = freeGpuDataCalls w /\
      wasDestroyed (res w5) = false /\
      step debug w5 OpUnrefCommandBuffer = Ok w6 /\
      fUsageRefCnt (res w6) = 0 /\
      fCommandBufferRefCnt (res w6) = 0 /\
      freeGpuDataCalls w6 =
      (if reclaimedByCache (res w) kCommandBufferRef
       then freeGpuDataCalls w else S (freeGpuDataCalls w)) /\
      wasDestroyed (res w6) =
      negb (reclaimedByCache (res w) kCommandBufferRef) /\
      run debug w [OpRefCacheOnly; OpRef; OpRefCommandBuffer;
                   OpUnref; OpUnref; OpUnrefCommandBuffer] = Ok w6.
Proof.
  intros debug [[flag gpu u c k rc idx ts] g] Hu Hc Hd.
  simpl in Hu, Hc, Hd. subst u c.
  destruct gpu as [gpu|]; [clear Hd | discriminate Hd].
  cbn [res freeGpuDataCalls].
  set (r0 := mkResource flag (Some gpu) 0 0 k rc idx ts).
  set (r1 := mkResource flag (Some gpu) 1 0 k rc idx ts).
  set (r2 := mkResource flag (Some gpu) 2 0 k rc idx ts).
  set (r3 := mkResource flag (Some gpu) 2 1 k rc idx ts).
  set (r4 := mkResource flag (Some gpu) 1 1 k rc idx ts).
  set (r5 := mkResource flag (Some gpu) 0 1 k rc idx ts).
  set (w6 := if reclaimedByCache r0 kCommandBufferRef
             then mkWorld r0 g else internalDispose (mkWorld r0 g)).
  assert (H1 : step debug (mkWorld r0 g) OpRefCacheOnly = Ok (mkWorld r1 g))
    by (destruct debug; reflexivity).
  assert (H2 : step debug (mkWorld r1 g) OpRef = Ok (mkWorld r2 g))
    by (destruct debug; reflexivity).
  assert (H3 : step debug (mkWorld r2 g) OpRefCommandBuffer = Ok (mkWorld r3 g))
    by reflexivity.
  assert (H4 : step debug (mkWorld r3 g) OpUnref = Ok (mkWorld r4 g))
    by (destruct debug; reflexivity).
  assert (H5 : step debug (mkWorld r4 g) OpUnref = Ok (mkWorld r5 g))
    by (destruct debug; reflexivity).
  assert (H6 : step debug (mkWorld r5 g) OpUnrefCommandBuffer = Ok w6).
  { unfold step.
    change (unrefCommandBuffer debug (mkWorld r5 g)) with
      (_ ← SkASSERT debug true;
       Ok (if notifyARefIsZero r0 kCommandBufferRef
           then internalDispose (mkWorld r0 g) else mkWorld r0 g)).
    rewrite (notifyARefIsZero_released r0 kCommandBufferRef) by reflexivity.
    subst w6. destruct (reclaimedByCache r0 kCommandBufferRef);
      destruct debug; reflexivity. }
  exists (mkWorld r1 g), (mkWorld r2 g), (mkWorld r3 g), (mkWorld r4 g),
    (mkWorld r5 g), w6.
  repeat (split; [first [assumption | reflexivity]|]).
  split; [subst w6; destruct (reclaimedByCache r0 kCommandBufferRef);
          reflexivity|].
  split; [subst w6; destruct (reclaimedByCache r0 kCommandBufferRef);
          reflexivity|].
  split; [subst w6; destruct (reclaimedByCache r0 kCommandBufferRef);
          reflexivity|].
  split; [subst w6; destruct (reclaimedByCache r0 kCommandBufferRef);
          reflexivity|].
  rewrite run_cons_alive by reflexivity. rewrite H1. cbn [mbind result_bind].
  rewrite run_cons_alive by reflexivity. rewrite H2. cbn [mbind result_bind].
  rewrite run_cons_alive by reflexivity. rewrite H3. cbn [mbind result_bind].
  rewrite run_cons_alive by reflexivity. rewrite H4. cbn [mbind result_bind].
  rewrite run_cons_alive by reflexivity. rewrite H5. cbn [mbind result_bind].
  rewrite run_cons_alive by reflexivity. rewrite H6. reflexivity.
Qed.

Ltac step_cases H :=
  unfold step, ref, unref, unrefCommandBuffer, refCacheOnly,
    removedFromCache, refCommandBuffer, Int32.fetch_add in H;
  repeat match type of H with
         | context [SkASSERT ?d ?c] => destruct (SkASSERT d c)
         end;
  simpl in H; try discriminate;
  repeat match type of H with
         | context [if ?b then _ else _] => destruct b
         end;
  injection H as <-.

(** One call of a well-formed sequence that does not overflow a counter
    keeps both counters equal to the number of references outstanding. *)
Lemma step_counts (debug : bool) (w w1 : World) (op : Op) (ops : list Op) :
  counts_fit w ->
  releases_matched (fUsageRefCnt (res w)) (fCommandBufferRefCnt (res w))
                   (op :: ops) = true ->
  holders_fit (fUsageRefCnt (res w)) (fCommandBufferRefCnt (res w))
              (op :: ops) = true ->
  step debug w op = Ok w1 ->
  counts_fit w1 /\
  releases_matched (fUsageRefCnt (res w1)) (fCommandBufferRefCnt (res w1))
                   ops = true /\
  holders_fit (fUsageRefCnt (res w1)) (fCommandBufferRefCnt (res w1))
              ops = true.
Proof.
  unfold counts_fit. intros [Hu Hc] Hm Hf Hstep.
  assert (Hmin : Int32.min_signed = -2147483648) by reflexivity.
  destruct op; simpl in Hm, Hf;
    repeat match goal with
           | H : _ && _ = true |- _ => apply andb_true_iff in H as [? ?]
           | H : (_ <=? _) = true |- _ => apply Z.leb_le in H
           | H : (_ <? _) = true |- _ => apply Z.ltb_lt in H
           end;
    step_cases Hstep; simpl;
    rewrite ?wrap_succ, ?wrap_pred by lia;
    repeat split; auto; lia.
Qed.

Lemma run_counts (debug : bool) (pre post : list Op) :
  forall w w' : World,
    counts_fit w ->
    releases_matched (fUsageRefCnt (res w)) (fCommandBufferRefCnt (res w))
                     (pre ++ post) = true ->
    holders_fit (fUsageRefCnt (res w)) (fCommandBufferRefCnt (res w))
                (pre ++ post) = true ->
    run debug w pre = Ok w' ->
    counts_fit w'.
Proof.
  induction pre as [|op pre IH]; intros w w' Hw Hm Hf Hrun.
  - simpl in Hrun. injection Hrun as <-. exact Hw.
  - apply run_cons_Ok in Hrun as [_ [w1 [Hstep Hrun]]].
    change ((op :: pre) ++ post) with (op :: (pre ++ post)) in Hm, Hf.
    destruct (step_counts debug w w1 op (pre ++ post) Hw Hm Hf Hstep)
      as (Hw1 & Hm1 & Hf1).
    exact (IH w1 w' Hw1 Hm1 Hf1 Hrun).
Qed.

(** C8 (amended). Start from a state whose counters are non-negative and
    run any sequence of calls in which every release is preceded by a
    matching acquire and no acquire is made on a counter that holds
    [INT32_MAX]. Then after every prefix of the sequence both counters are
    non-negative (and at most [INT32_MAX]). *)
Theorem counters_stay_nonnegative :
  forall (debug : bool) (w w' : World) (pre post : list Op),
    counts_fit w ->
    releases_matched (fUsageRefCnt (res w)) (fCommandBufferRefCnt (res w))
                     (pre ++ post) = true ->
    holders_fit (fUsageRefCnt (res w)) (fCommandBufferRefCnt (res w))
                (pre ++ post) = true ->
    run debug w pre = Ok w' ->
    0 <= fUsageRefCnt (res w') <= Int32.max_signed /\
    0 <= fCommandBufferRefCnt (res w') <= Int32.max_signed.
Proof.
  intros debug w w' pre post Hw Hm Hf Hrun.
  exact (run_counts debug pre post w w' Hw Hm Hf Hrun).
Qed.

Lemma wrap_wrap_add (a b : Z) : Int32.wrap (Int32.wrap a + b) = Int32.wrap (a + b).
Proof.
  unfold Int32.wrap, Int32.min_signed, Int32.modulus.
  f_equal.
  replace ((a - -2147483648) mod 4294967296 + -2147483648 + b - -2147483648)
    with ((a - -2147483648) mod 4294967296 + b) by lia.
  replace (a + b - -2147483648) with ((a - -2147483648) + b) by lia.
  rewrite Z.add_mod_idemp_l by lia. reflexivity.
Qed.

Lemma wrap_is_in_range (z : Z) : Int32.in_range (Int32.wrap z).
Proof.
  unfold Int32.in_range, Int32.wrap, Int32.min_signed, Int32.max_signed,
    Int32.modulus.
  pose proof (Z.mod_pos_bound (z - -2147483648) 4294967296). lia.
Qed.

(** [n] calls of [refCommandBuffer] in a row on an entry that is there:
    nothing stops them, and the counter holds the number of references
    reduced to 32 bits. *)
Lemma run_repeat_refCommandBuffer (debug : bool) (n : nat) :
  forall w : World,
    wasDestroyed (res w) = false ->
    Int32.in_range (fCommandBufferRefCnt (res w)) ->
    exists w',
      run debug w (repeat OpRefCommandBuffer n) = Ok w' /\
      fUsageRefCnt (res w') = fUsageRefCnt (res w) /\
      fCommandBufferRefCnt (res w') =
      Int32.wrap (fCommandBufferRefCnt (res w) + Z.of_nat n).
Proof.
  induction n as [|n IH]; intros w Hd Hw.
  - exists w. simpl. rewrite Z.add_0_r, wrap_in_range by exact Hw. auto.
  - destruct (IH (with_res (refCommandBuffer (res w)) w)) as (w' & Hrun & Hu & Hc).
    { exact Hd. }
    { apply wrap_is_in_range. }
    exists w'. split.
    { cbn [repeat]. rewrite run_cons_alive by exact Hd. exact Hrun. }
    split; [exact Hu|].
    rewrite Hc. unfold refCommandBuffer, Int32.fetch_add. simpl res.
    simpl fCommandBufferRefCnt. rewrite wrap_wrap_add. f_equal. lia.
Qed.

Lemma releases_matched_repeat_refCommandBuffer (n : nat) :
  forall u c, releases_matched u c (repeat OpRefCommandBuffer n) = true.
Proof. induction n as [|n IH]; intros u c; simpl; auto. Qed.

(** *** The race between [unref] and [unrefCommandBuffer] *)

Lemma tally_nonneg (f : Thread -> bool) (ts : list Thread) : 0 <= tally f ts.
Proof.
  induction ts as [|t ts IH]; simpl; [lia|]. destruct (f t); simpl; lia.
Qed.

Lemma tally_lookup (f : Thread -> bool) (ts : list Thread) (i : nat) (t : Thread) :
  ts !! i = Some t -> Z.b2z (f t) <= tally f ts.
Proof.
  revert i. induction ts as [|t0 ts IH]; intros i Hi; [discriminate|].
  destruct i as [|i]; simpl in *.
  - injection Hi as ->. pose proof (tally_nonneg f ts). lia.
  - specialize (IH i Hi). destruct (f t0); simpl; lia.
Qed.

Lemma tally_insert (f : Thread -> bool) (ts : list Thread) (i : nat)
      (t t' : Thread) :
  ts !! i = Some t ->
  tally f (<[i := t']> ts) = tally f ts - Z.b2z (f t) + Z.b2z (f t').
Proof.
  revert i. induction ts as [|t0 ts IH]; intros i Hi; [discriminate|].
  destruct i as [|i]; simpl in *.
  - injection Hi as ->. lia.
  - rewrite (IH i Hi). lia.
Qed.

Lemma notifyARefIsZero_true (r : Resource) (removedRef : LastRemovedRef) :
  notifyARefIsZero r removedRef = true ->
  fUsageRefCnt r = 0 /\ fCommandBufferRefCnt r = 0.
Proof.
  unfold notifyARefIsZero, hasAnyRefs, hasUsageRef, hasCommandBufferRef.
  destruct (wasDestroyed r); [discriminate|].
  destruct (Z.eqb_spec 0 (fUsageRefCnt r)),
    (Z.eqb_spec 0 (fCommandBufferRefCnt r)); simpl; intros H;
    try discriminate; lia.
Qed.


Local Arguments Z.eqb : simpl never.

Lemma tally_mono (f g : Thread -> bool) (ts : list Thread) :
  (forall t, f t = true -> g t = true) -> tally f ts <= tally g ts.
Proof.
  intros Hfg. induction ts as [|t ts IH]; simpl; [lia|].
  destruct (f t) eqn:Ft; [rewrite (Hfg t Ft)|destruct (g t)]; simpl; lia.
Qed.

Lemma runs_teardown_told (ts : list Thread) :
  tally runs_teardown ts <= tally told_to_free ts.
Proof.
  apply tally_mono. intros [c0 []]; cbv; intros H;
    first [exact H | discriminate H].
Qed.

Lemma has_disposed_runs_teardown (ts : list Thread) :
  tally has_disposed ts <= tally runs_teardown ts.
Proof.
  apply tally_mono. intros [c0 []]; cbv; intros H;
    first [exact H | discriminate H].
Qed.

Ltac race_arith :=
  simpl; unfold goto;
  repeat match goal with
         | Hi : _ !! _ = Some _ |- _ => rewrite !(tally_insert _ _ _ _ _ Hi)
         end;
  simpl;
  repeat apply conj; intros; repeat apply conj;
  repeat match goal with
         | Hg : fGpu ?r = None, H : fGpu ?r = None -> _ |- _ =>
           specialize (H Hg)
         end;
  try assumption; try discriminate; try lia.

Lemma thread_step_invariant (debug : bool) (g0 : nat)
      (rc : option ResourceCache) (cfg : Config) (i : nat) :
  race_invariant g0 rc cfg ->
  exists cfg', thread_step debug cfg i = Ok cfg' /\ race_invariant g0 rc cfg'.
Proof.
  intros Inv. unfold thread_step.
  destruct (threads cfg !! i) as [[c p]|] eqn:Hi; [|eauto].
  destruct cfg as [[r g] m ts].
  unfold race_invariant, teardown_unlocked in *. simpl in *.
  pose proof (tally_lookup (awaiting CallUnref) _ _ _ Hi) as L1.
  pose proof (tally_lookup (awaiting CallUnrefCommandBuffer) _ _ _ Hi) as L2.
  pose proof (tally_lookup (notifying CallUnref) _ _ _ Hi) as L3.
  pose proof (tally_lookup (notifying CallUnrefCommandBuffer) _ _ _ Hi) as L4.
  pose proof (tally_lookup in_locked_block _ _ _ Hi) as L5.
  pose proof (tally_lookup told_to_free _ _ _ Hi) as L6.
  pose proof (tally_lookup has_disposed _ _ _ Hi) as L7.
  pose proof (tally_lookup pending_dispose _ _ _ Hi) as L8.
  pose proof (tally_nonneg (awaiting CallUnref) ts) as N1.
  pose proof (tally_nonneg (awaiting CallUnrefCommandBuffer) ts) as N2.
  pose proof (tally_nonneg (notifying CallUnref) ts) as N3.
  pose proof (tally_nonneg (notifying CallUnrefCommandBuffer) ts) as N4.
  pose proof (tally_nonneg in_locked_block ts) as N5.
  pose proof (tally_nonneg told_to_free ts) as N6.
  pose proof (tally_nonneg has_disposed ts) as N7.
  pose proof (tally_nonneg pending_dispose ts) as N8.
  pose proof (tally_lookup locked_elsewhere _ _ _ Hi) as L9.
  pose proof (tally_nonneg locked_elsewhere ts) as N9.
  pose proof (tally_lookup runs_teardown _ _ _ Hi) as L10.
  pose proof (tally_nonneg runs_teardown ts) as N10.
  pose proof (runs_teardown_told ts) as M.
  pose proof (has_disposed_runs_teardown ts) as M'.
  assert (Hmin : Int32.min_signed = -2147483648) by reflexivity.
  assert (Hm : 0 <= Z.b2z m <= 1) by (destruct m; simpl; lia).
  destruct Inv as (Irc & Iu & Ic & Iumax & Icmax & Im & Inl & Inu & Inc
                   & It1 & It0 & Itd & Ig & Ialive & Iunl).
  assert (Hacc : accesses_entry (mkThread c p) && wasDestroyed r = false).
  { unfold wasDestroyed. destruct (fGpu r); [apply andb_false_r|].
    specialize (Ialive eq_refl).
    destruct p as [| | | |b|b|b]; try destruct b; try reflexivity;
      exfalso; destruct c; simpl in *; lia. }
  rewrite Hacc. unfold thread_action. simpl.
  destruct p.
  - (* taking the mutex *)
    destruct m; [eexists; split; [reflexivity|]; race_arith|].
    eexists. split; [reflexivity|].
    destruct c; simpl in *; race_arith.
  - (* the assertion *)
    assert (Href : hasRef_of c r = true).
    { destruct c; simpl in *;
        [apply hasUsageRef_true | apply hasCommandBufferRef_true]; lia. }
    rewrite Href.
    eexists. split; [destruct debug; reflexivity|].
    destruct c; simpl in *; race_arith.
  - (* the decrement *)
    unfold Int32.fetch_add.
    destruct c; simpl in *; rewrite wrap_pred by lia.
    + destruct (Z.eqb_spec 1 (fUsageRefCnt r));
        (eexists; split; [reflexivity|]); race_arith.
    + destruct (Z.eqb_spec 1 (fCommandBufferRefCnt r));
        (eexists; split; [reflexivity|]); race_arith.
  - (* the arbitration *)
    pose proof (notifyARefIsZero_true r (removedRef_of c)) as Ht.
    destruct (notifyARefIsZero r (removedRef_of c)).
    + specialize (Ht eq_refl).
      eexists. split; [reflexivity|].
      destruct c; simpl in *; race_arith.
    + clear Ht.
      eexists. split; [reflexivity|].
      destruct c; simpl in *; race_arith.
  - (* leaving the locked block *)
    eexists. split; [reflexivity|].
    destruct m; destruct c, shouldFree; simpl in *; race_arith.
  - (* the test of shouldFree *)
    eexists. split; [reflexivity|].
    destruct c, shouldFree; simpl in *; race_arith.
  - (* returned *)
    eexists. split; [reflexivity|]. race_arith.
Qed.

Lemma exec_invariant (debug : bool) (g0 : nat) (rc : option ResourceCache)
      (schedule : list nat) :
  forall cfg,
    race_invariant g0 rc cfg ->
    exists cfg', exec debug cfg schedule = Ok cfg' /\ race_invariant g0 rc cfg'.
Proof.
  induction schedule as [|i schedule IH]; intros cfg Inv.
  - exists cfg. split; [reflexivity | exact Inv].
  - destruct (thread_step_invariant debug g0 rc cfg i Inv) as (cfg1 & Hstep & Inv1).
    destruct (IH cfg1 Inv1) as (cfg' & Hexec & Inv').
    exists cfg'. split; [|exact Inv'].
    simpl. rewrite Hstep. exact Hexec.
Qed.

Lemma tally_ext_on (g f f' : Thread -> bool) (ts : list Thread) :
  (forall t, g t = true -> f t = f' t) ->
  forallb g ts = true ->
  tally f ts = tally f' ts.
Proof.
  intros Hg. induction ts as [|t ts IH]; intros Hall; simpl in *; [reflexivity|].
  apply andb_true_iff in Hall as [Ht Hall].
  rewrite (Hg t Ht), (IH Hall). reflexivity.
Qed.

Lemma tally_false (ts : list Thread) : tally (fun _ => false) ts = 0.
Proof. induction ts as [|t ts IH]; simpl; lia. Qed.

Lemma tally_zero_on (g f : Thread -> bool) (ts : list Thread) :
  (forall t, g t = true -> f t = false) ->
  forallb g ts = true ->
  tally f ts = 0.
Proof.
  intros Hg Hall. rewrite (tally_ext_on g f (fun _ => false) ts Hg Hall).
  apply tally_false.
Qed.

Lemma calls_of_total (ts : list Thread) :
  calls_of CallUnref ts + calls_of CallUnrefCommandBuffer ts =
  Z.of_nat (length ts).
Proof.
  unfold calls_of.
  set (fu := fun t => same_call CallUnref (call t)).
  set (fc := fun t => same_call CallUnrefCommandBuffer (call t)).
  induction ts as [|t ts IH]; [reflexivity|].
  cbn [tally length]. rewrite Nat2Z.inj_succ.
  assert (Z.b2z (fu t) + Z.b2z (fc t) = 1)
    by (subst fu fc; destruct t as [[] ?]; reflexivity).
  lia.
Qed.

Ltac by_pc :=
  let t := fresh "t" in
  let H := fresh "H" in
  intros t H; destruct t as [[] []]; cbv in H |- *; congruence.

(** The configuration in which every call is about to start. *)
Lemma initial_race_invariant (r : Resource) (g : nat) (ts : list Thread) :
  ts <> [] ->
  forallb about_to_start ts = true ->
  fUsageRefCnt r = calls_of CallUnref ts ->
  fCommandBufferRefCnt r = calls_of CallUnrefCommandBuffer ts ->
  fUsageRefCnt r <= Int32.max_signed ->
  fCommandBufferRefCnt r <= Int32.max_signed ->
  wasDestroyed r = false ->
  race_invariant g (fReturnCache r) (mkConfig (mkWorld r g) false ts).
Proof.
  intros Hne Hall Hu Hc Humax Hcmax Hd.
  pose proof (calls_of_total ts) as Htot.
  assert (Hlen : 1 <= Z.of_nat (length ts)).
  { destruct ts; [congruence | simpl length; lia]. }
  assert (Eu : calls_of CallUnref ts = tally (awaiting CallUnref) ts)
    by (apply (tally_ext_on about_to_start); [by_pc | exact Hall]).
  assert (Ec : calls_of CallUnrefCommandBuffer ts =
               tally (awaiting CallUnrefCommandBuffer) ts)
    by (apply (tally_ext_on about_to_start); [by_pc | exact Hall]).
  rewrite Eu, Ec in *.
  unfold race_invariant, teardown_unlocked. simpl.
  rewrite (tally_zero_on about_to_start (notifying CallUnref) ts),
    (tally_zero_on about_to_start (notifying CallUnrefCommandBuffer) ts),
    (tally_zero_on about_to_start in_locked_block ts),
    (tally_zero_on about_to_start locked_elsewhere ts),
    (tally_zero_on about_to_start told_to_free ts),
    (tally_zero_on about_to_start has_disposed ts),
    (tally_zero_on about_to_start pending_dispose ts),
    (tally_zero_on about_to_start runs_teardown ts)
    by (try exact Hall; by_pc).
  unfold wasDestroyed in Hd.
  repeat apply conj; intros; repeat apply conj; try reflexivity; try lia.
  destruct (fGpu r); discriminate.
Qed.

Lemma forallb_lookup (f : Thread -> bool) (ts : list Thread) (i : nat)
      (t : Thread) :
  forallb f ts = true -> ts !! i = Some t -> f t = true.
Proof.
  revert i. induction ts as [|t0 ts IH]; intros i Hall Hi; [discriminate|].
  simpl in Hall. apply andb_true_iff in Hall as [H0 Hall].
  destruct i as [|i]; simpl in Hi.
  - injection Hi as <-. exact H0.
  - exact (IH i Hall Hi).
Qed.

(** No thread takes a step on an entry that has been destroyed before the
    first call starts. *)
Lemma exec_destroyed (debug : bool) (schedule : list nat) (cfg cfg' : Config) :
  wasDestroyed (res (world cfg)) = true ->
  forallb about_to_start (threads cfg) = true ->
  exec debug cfg schedule = Ok cfg' ->
  cfg' = cfg.
Proof.
  intros Hd Hall. induction schedule as [|i schedule IH]; intros Hexec.
  - injection Hexec as <-. reflexivity.
  - change (exec debug cfg (i :: schedule)) with
      (c ← thread_step debug cfg i; exec debug c schedule) in Hexec.
    unfold thread_step in Hexec.
    destruct (threads cfg !! i) as [t|] eqn:Hi; [|exact (IH Hexec)].
    assert (Ht : about_to_start t = true).
    { exact (forallb_lookup about_to_start _ i t Hall Hi). }
    rewrite Hd in Hexec. destruct t as [c []]; discriminate.
Qed.

(** The method bodies and the thread semantics agree: on an entry that is
    there, a thread that runs alone performs, in six steps, the sequential
    call. *)
Lemma solo_thread_is_sequential_call (debug : bool) (w : World) (c : Release) :
  wasDestroyed (res w) = false ->
  match exec debug (mkConfig w false [mkThread c AtLock])
             [0; 0; 0; 0; 0; 0]%nat with
  | Ok cfg' =>
    match c with
    | CallUnref => unref debug w
    | CallUnrefCommandBuffer => unrefCommandBuffer debug w
    end = Ok (world cfg') /\
    fUnrefMutex cfg' = false /\
    forallb has_returned (threads cfg') = true
  | AssertFail =>
    match c with
    | CallUnref => unref debug w
    | CallUnrefCommandBuffer => unrefCommandBuffer debug w
    end = AssertFail
  | UseAfterFree => False
  end.
Proof.
  destruct w as [[flag [gpu|] u cnt k rc idx ts] g]; intros Hd;
    [clear Hd | discriminate Hd].
  destruct c; unfold unref, unrefCommandBuffer, exec, thread_step,
                thread_action, SkASSERT;
    cbn [threads world fUnrefMutex lookup list_lookup call pc mbind result_bind
         hasRef_of counter_of with_counter removedRef_of res goto
         insert list_insert accesses_entry wasDestroyed fGpu andb
         fUsageRefCnt fCommandBufferRefCnt];
    unfold Int32.fetch_add;
    (destruct debug;
     [match goal with
      | |- context [if ?b then Ok tt else AssertFail] =>
        destruct b; [|reflexivity]
      end|]);
    cbn [threads world fUnrefMutex lookup list_lookup call pc mbind result_bind
         hasRef_of counter_of with_counter removedRef_of res goto
         insert list_insert with_res accesses_entry wasDestroyed fGpu andb
         with_fUsageRefCnt with_fCommandBufferRefCnt
         fUsageRefCnt fCommandBufferRefCnt];
    (destruct (1 =? _);
     cbn [threads world fUnrefMutex lookup list_lookup call pc mbind
          result_bind hasRef_of counter_of with_counter removedRef_of res
          goto insert list_insert with_res accesses_entry wasDestroyed fGpu
          andb with_fUsageRefCnt with_fCommandBufferRefCnt];
     [destruct (notifyARefIsZero _ _)|]);
    cbn [threads world fUnrefMutex lookup list_lookup call pc mbind
         result_bind res goto insert list_insert with_res accesses_entry
         wasDestroyed fGpu andb];
    repeat split.
Qed.

(** A step that is taken is the statement the thread is at. *)
Lemma thread_step_Ok (debug : bool) (cfg cfg' : Config) (i : nat) :
  thread_step debug cfg i = Ok cfg' ->
  match threads cfg !! i with
  | None => Ok cfg
  | Some t => thread_action debug cfg i t
  end = Ok cfg'.
Proof.
  unfold thread_step. destruct (threads cfg !! i) as [t|]; [|auto].
  destruct (accesses_entry t && wasDestroyed (res (world cfg)));
    [discriminate | auto].
Qed.

(** *** No interleaving gets stuck *)

Lemma work_left_insert (ts : list Thread) (i : nat) (t t' : Thread) :
  ts !! i = Some t ->
  (work_left (<[i := t']> ts) + steps_left (pc t) =
   work_left ts + steps_left (pc t'))%nat.
Proof.
  revert i. induction ts as [|t0 ts IH]; intros i Hi; [discriminate|].
  destruct i as [|i]; simpl in *.
  - injection Hi as ->. lia.
  - specialize (IH i Hi). lia.
Qed.

Lemma work_left_done (ts : list Thread) :
  work_left ts = 0%nat -> forallb has_returned ts = true.
Proof.
  induction ts as [|[c p] ts IH]; simpl; [reflexivity|].
  intros H. destruct p; simpl in *; try lia. apply IH. lia.
Qed.

Lemma work_left_unfinished (ts : list Thread) :
  work_left ts <> 0%nat ->
  exists i t, ts !! i = Some t /\ has_returned t = false.
Proof.
  induction ts as [|t ts IH]; simpl; [congruence|]. intros H.
  destruct (has_returned t) eqn:Ht.
  - destruct IH as (i & t' & Hi & Ht').
    { destruct t as [c []]; simpl in *; try discriminate; lia. }
    exists (S i), t'. auto.
  - exists 0%nat, t. auto.
Qed.

Lemma tally_positive (f : Thread -> bool) (ts : list Thread) :
  1 <= tally f ts -> exists i t, ts !! i = Some t /\ f t = true.
Proof.
  induction ts as [|t ts IH]; simpl; [lia|]. intros H.
  destruct (f t) eqn:Ht.
  - exists 0%nat, t. auto.
  - destruct IH as (i & t' & Hi & Ht'); [simpl in H; lia|].
    exists (S i), t'. auto.
Qed.

(** A thread that has not returned and does not wait for a held mutex moves,
    and is then closer to its return. *)
Lemma thread_step_advances (debug : bool) (cfg cfg' : Config) (i : nat)
      (t : Thread) :
  threads cfg !! i = Some t ->
  has_returned t = false ->
  (pc t = AtLock -> fUnrefMutex cfg = false) ->
  thread_step debug cfg i = Ok cfg' ->
  (work_left (threads cfg') < work_left (threads cfg))%nat.
Proof.
  intros Hi Hret Hlock Hstep. apply thread_step_Ok in Hstep.
  unfold thread_action in Hstep. rewrite Hi in Hstep.
  destruct t as [c p]. simpl in *.
  destruct p; try discriminate.
  - rewrite Hlock in Hstep by reflexivity. injection Hstep as <-. simpl.
    unfold goto. pose proof (work_left_insert _ _ _ (mkThread c AtAssert) Hi).
    simpl in *. lia.
  - destruct (SkASSERT debug (hasRef_of c (res (world cfg)))); try discriminate.
    injection Hstep as <-. simpl.
    unfold goto. pose proof (work_left_insert _ _ _ (mkThread c AtFetchAdd) Hi).
    simpl in *. lia.
  - unfold Int32.fetch_add in Hstep. injection Hstep as <-. simpl.
    unfold goto.
    destruct (1 =? counter_of c (res (world cfg)));
      [pose proof (work_left_insert _ _ _ (mkThread c AtNotify) Hi)
      |pose proof (work_left_insert _ _ _ (mkThread c (AtUnlock false)) Hi)];
      simpl in *; lia.
  - injection Hstep as <-. simpl. unfold goto.
    pose proof (work_left_insert _ _ _
      (mkThread c (AtUnlock (notifyARefIsZero (res (world cfg))
                                              (removedRef_of c)))) Hi).
    simpl in *. lia.
  - injection Hstep as <-. simpl. unfold goto.
    pose proof (work_left_insert _ _ _ (mkThread c (AtDispose shouldFree)) Hi).
    simpl in *. lia.
  - injection Hstep as <-. simpl. unfold goto.
    pose proof (work_left_insert _ _ _ (mkThread c (Returned shouldFree)) Hi).
    simpl in *. lia.
Qed.

Lemma race_progress (debug : bool) (g0 : nat) (rc : option ResourceCache)
      (cfg : Config) :
  race_invariant g0 rc cfg ->
  work_left (threads cfg) <> 0%nat ->
  exists i cfg',
    thread_step debug cfg i = Ok cfg' /\
    race_invariant g0 rc cfg' /\
    (work_left (threads cfg') < work_left (threads cfg))%nat.
Proof.
  intros Inv Hwork.
  assert (Hpick : exists i t, threads cfg !! i = Some t /\
                              has_returned t = false /\
                              (pc t = AtLock -> fUnrefMutex cfg = false)).
  { destruct Inv as (_ & _ & _ & _ & _ & Im & _).
    destruct (fUnrefMutex cfg) eqn:Hm; simpl in Im.
    - destruct (tally_positive in_locked_block (threads cfg)) as (i & t & Hi & Ht);
        [lia|].
      exists i, t. split; [exact Hi|].
      destruct t as [c []]; cbv in Ht; try discriminate Ht;
        (split; [reflexivity | intros E; discriminate E]).
    - destruct (work_left_unfinished _ Hwork) as (i & t & Hi & Ht).
      exists i, t. auto. }
  destruct Hpick as (i & t & Hi & Hret & Hlock).
  destruct (thread_step_invariant debug g0 rc cfg i Inv) as (cfg' & Hstep & Inv').
  exists i, cfg'. split; [exact Hstep|]. split; [exact Inv'|].
  exact (thread_step_advances debug cfg cfg' i t Hi Hret Hlock Hstep).
Qed.

Lemma race_completion (debug : bool) (g0 : nat) (rc : option ResourceCache)
      (n : nat) :
  forall cfg,
    (work_left (threads cfg) <= n)%nat ->
    race_invariant g0 rc cfg ->
    exists schedule cfg',
      exec debug cfg schedule = Ok cfg' /\
      race_invariant g0 rc cfg' /\
      forallb has_returned (threads cfg') = true.
Proof.
  induction n as [|n IH]; intros cfg Hn Inv.
  - exists [], cfg. split; [reflexivity|]. split; [exact Inv|].
    apply work_left_done. lia.
  - destruct (Nat.eq_dec (work_left (threads cfg)) 0%nat) as [Hz|Hnz].
    + exists [], cfg. split; [reflexivity|]. split; [exact Inv|].
      apply work_left_done. exact Hz.
    + destruct (race_progress debug g0 rc cfg Inv Hnz) as (i & cfg1 & Hstep & Inv1 & Hlt).
      destruct (IH cfg1 ltac:(lia) Inv1) as (schedule & cfg' & Hexec & Inv' & Hret).
      exists (i :: schedule), cfg'. split; [|auto].
      simpl. rewrite Hstep. exact Hexec.
Qed.

Lemma exec_app (debug : bool) (s1 s2 : list nat) :
  forall cfg cfg1,
    exec debug cfg s1 = Ok cfg1 ->
    exec debug cfg (s1 ++ s2) = exec debug cfg1 s2.
Proof.
  induction s1 as [|i s1 IH]; intros cfg cfg1 H1.
  - injection H1 as <-. reflexivity.
  - change (exec debug cfg ((i :: s1) ++ s2)) with
      (c ← thread_step debug cfg i; exec debug c (s1 ++ s2)).
    change (exec debug cfg (i :: s1)) with
      (c ← thread_step debug cfg i; exec debug c s1) in H1.
    destruct (thread_step debug cfg i) as [c| |]; try discriminate.
    exact (IH c cfg1 H1).
Qed.

(** ** Further properties of the header *)

(** Incrementing and then decrementing a 32-bit counter restores it, also
    across the wrap-around. *)
Lemma wrap_succ_pred (c : Z) :
  Int32.in_range c -> Int32.wrap (Int32.wrap (c + 1) + -1) = c.
Proof.
  intros Hc. rewrite wrap_wrap_add.
  replace (c + 1 + -1) with c by lia. apply wrap_in_range. exact Hc.
Qed.

Lemma wrap_succ_not_1 (c : Z) :
  Int32.in_range c -> c <> 0 -> Int32.wrap (c + 1) <> 1.
Proof.
  intros Hc Hnz H. pose proof (wrap_succ_pred c Hc) as E.
  rewrite H in E. change (Int32.wrap (1 + -1)) with 0 in E. lia.
Qed.

Lemma wrap_succ_not_0 (c : Z) :
  Int32.in_range c -> c <> -1 -> Int32.wrap (c + 1) <> 0.
Proof.
  intros Hc Hnz H. pose proof (wrap_succ_pred c Hc) as E.
  rewrite H in E. change (Int32.wrap (0 + -1)) with (-1) in E. lia.
Qed.

Lemma with_res_same (w : World) : with_res (res w) w = w.
Proof. destruct w. reflexivity. Qed.

Lemma with_fUsageRefCnt_same (r : Resource) :
  with_fUsageRefCnt (fUsageRefCnt r) r = r.
Proof. destruct r. reflexivity. Qed.

Lemma with_fCommandBufferRefCnt_same (r : Resource) :
  with_fCommandBufferRefCnt (fCommandBufferRefCnt r) r = r.
Proof. destruct r. reflexivity. Qed.

(** [unref] on a count that is neither 0 nor 1 only decrements. *)
Lemma unref_not_last (debug : bool) (w : World) :
  fUsageRefCnt (res w) <> 0 ->
  fUsageRefCnt (res w) <> 1 ->
  unref debug w =
  Ok (with_res (with_fUsageRefCnt (Int32.wrap (fUsageRefCnt (res w) + -1))
                                  (res w)) w).
Proof.
  intros H0 H1. unfold unref, SkASSERT, Int32.fetch_add.
  rewrite (proj2 (hasUsageRef_true (res w)) H0).
  destruct (Z.eqb_spec 1 (fUsageRefCnt (res w))) as [E|E]; [lia|].
  destruct debug; reflexivity.
Qed.

Lemma unrefCommandBuffer_not_last (debug : bool) (w : World) :
  fCommandBufferRefCnt (res w) <> 0 ->
  fCommandBufferRefCnt (res w) <> 1 ->
  unrefCommandBuffer debug w =
  Ok (with_res (with_fCommandBufferRefCnt
                  (Int32.wrap (fCommandBufferRefCnt (res w) + -1)) (res w)) w).
Proof.
  intros H0 H1. unfold unrefCommandBuffer, SkASSERT, Int32.fetch_add.
  rewrite (proj2 (hasCommandBufferRef_true (res w)) H0).
  destruct (Z.eqb_spec 1 (fCommandBufferRefCnt (res w))) as [E|E]; [lia|].
  destruct debug; reflexivity.
Qed.

(** X1. On an entry with at least one usage reference, [ref] followed by
    [unref] gives back the very state it started from, in both builds and
    also at [INT32_MAX], where the counter wraps and wraps back; the pair
    never reaches [notifyARefIsZero] or [internalDispose]. *)
Theorem ref_unref_round_trip :
  forall (debug : bool) (w : World),
    1 <= fUsageRefCnt (res w) <= Int32.max_signed ->
    exists r1,
      ref debug (res w) = Ok r1 /\ unref debug (with_res r1 w) = Ok w.
Proof.
  intros debug w Hc.
  assert (Hmin : Int32.min_signed = -2147483648) by reflexivity.
  assert (Hr : Int32.in_range (fUsageRefCnt (res w)))
    by (unfold Int32.in_range; lia).
  exists (with_fUsageRefCnt (Int32.wrap (fUsageRefCnt (res w) + 1)) (res w)).
  split.
  - unfold ref, SkASSERT, Int32.fetch_add.
    rewrite (proj2 (hasUsageRef_true (res w))) by lia.
    destruct debug; reflexivity.
  - rewrite unref_not_last.
    + simpl. rewrite wrap_succ_pred by exact Hr.
      destruct w as [r g]. destruct r. reflexivity.
    + simpl. apply wrap_succ_not_0; [exact Hr | lia].
    + simpl. apply wrap_succ_not_1; [exact Hr | lia].
Qed.

(** X2. On an entry with at least one command-buffer reference,
    [refCommandBuffer] followed by [unrefCommandBuffer] gives back the very
    state it started from, in both builds and also at [INT32_MAX]. *)
Theorem refCommandBuffer_unrefCommandBuffer_round_trip :
  forall (debug : bool) (w : World),
    1 <= fCommandBufferRefCnt (res w) <= Int32.max_signed ->
    unrefCommandBuffer debug (with_res (refCommandBuffer (res w)) w) = Ok w.
Proof.
  intros debug w Hc.
  assert (Hmin : Int32.min_signed = -2147483648) by reflexivity.
  assert (Hr : Int32.in_range (fCommandBufferRefCnt (res w)))
    by (unfold Int32.in_range; lia).
  rewrite unrefCommandBuffer_not_last.
  - unfold refCommandBuffer, Int32.fetch_add. simpl.
    rewrite wrap_succ_pred by exact Hr.
    destruct w as [r g]. destruct r. reflexivity.
  - unfold refCommandBuffer, Int32.fetch_add. simpl.
    apply wrap_succ_not_0; [exact Hr | lia].
  - unfold refCommandBuffer, Int32.fetch_add. simpl.
    apply wrap_succ_not_1; [exact Hr | lia].
Qed.

(** X3. [freeGpuData] is reached from three places only: an [unref] that
    reads a usage count of 1, an [unrefCommandBuffer] that reads a
    command-buffer count of 1, and [removedFromCache]. Whatever
    [notifyARefIsZero] answers, a call that changes the number of
    [freeGpuData] invocations is one of these, it raises the number by
    exactly one, and a release that does so leaves its own counter at 0. *)
Theorem teardown_only_from_last_release :
  forall (debug : bool) (w w' : World) (op : Op),
    step debug w op = Ok w' ->
    freeGpuDataCalls w' <> freeGpuDataCalls w ->
    freeGpuDataCalls w' = S (freeGpuDataCalls w) /\
    (op = OpUnref /\
     fUsageRefCnt (res w) = 1 /\ fUsageRefCnt (res w') = 0 \/
     op = OpUnrefCommandBuffer /\
     fCommandBufferRefCnt (res w) = 1 /\ fCommandBufferRefCnt (res w') = 0 \/
     op = OpRemovedFromCache).
Proof.
  intros debug w w' op Hstep Hfree.
  destruct op;
    unfold step, ref, unref, unrefCommandBuffer, refCacheOnly,
      removedFromCache, refCommandBuffer, Int32.fetch_add in Hstep;
    repeat match type of Hstep with
           | context [SkASSERT ?d ?c] => destruct (SkASSERT d c)
           end;
    cbn [mbind result_bind] in Hstep; try discriminate.
  - injection Hstep as <-. simpl in Hfree. congruence.
  - destruct (Z.eqb_spec 1 (fUsageRefCnt (res w))) as [E|E].
    + destruct (notifyARefIsZero _ kUsageRef);
        injection Hstep as <-; simpl in Hfree |- *; [|congruence].
      rewrite <- E. split; [reflexivity|]. left. auto.
    + injection Hstep as <-. simpl in Hfree. congruence.
  - injection Hstep as <-. simpl in Hfree. congruence.
  - destruct (Z.eqb_spec 1 (fCommandBufferRefCnt (res w))) as [E|E].
    + destruct (notifyARefIsZero _ kCommandBufferRef);
        injection Hstep as <-; simpl in Hfree |- *; [|congruence].
      rewrite <- E. split; [reflexivity|]. right. left. auto.
    + injection Hstep as <-. simpl in Hfree. congruence.
  - injection Hstep as <-. simpl in Hfree. congruence.
  - injection Hstep as <-. simpl in Hfree. congruence.
  - injection Hstep as <-. simpl in Hfree. congruence.
  - injection Hstep as <-. simpl in Hfree. congruence.
  - injection Hstep as <-. simpl in Hfree. congruence.
  - destruct (notifyARefIsZero _ kCache);
      injection Hstep as <-; simpl in Hfree |- *; [|congruence].
    split; [reflexivity|]. right. right. reflexivity.
Qed.



Lemma step_debug_then_release (w w' : World) (op : Op) :
  is_removedFromCache op = false ->
  step true w op = Ok w' -> step false w op = Ok w'.
Proof.
  intros Hop Hstep. destruct op; try discriminate Hop;
    unfold step, ref, unref, unrefCommandBuffer, refCacheOnly, SkASSERT
      in Hstep |- *;
    repeat match type of Hstep with
           | context [if ?b then Ok tt else AssertFail] => destruct b
           end;
    cbn [mbind result_bind] in Hstep |- *; try discriminate; exact Hstep.
Qed.

(** X5. The assertions never change what a call does: a sequence without
    [removedFromCache] that a debug build runs to its end gives the same
    final state in a release build. *)
Theorem debug_and_release_builds_agree :
  forall (ops : list Op) (w w' : World),
    forallb (fun op => negb (is_removedFromCache op)) ops = true ->
    run true w ops = Ok w' ->
    run false w ops = Ok w'.
Proof.
  induction ops as [|op ops IH]; intros w w' Hops Hrun.
  - exact Hrun.
  - simpl in Hops. apply andb_true_iff in Hops as [Hop Hops].
    apply negb_true_iff in Hop.
    apply run_cons_Ok in Hrun as [Hlive [w1 [Hstep Hrun]]].
    rewrite run_cons_alive by exact Hlive.
    rewrite (step_debug_then_release w w1 op Hop Hstep).
    exact (IH w1 w' Hops Hrun).
Qed.

Lemma step_counts_exact (debug : bool) (w w1 : World) (op : Op) (ops : list Op) :
  counts_fit w ->
  releases_matched (fUsageRefCnt (res w)) (fCommandBufferRefCnt (res w))
                   (op :: ops) = true ->
  holders_fit (fUsageRefCnt (res w)) (fCommandBufferRefCnt (res w))
              (op :: ops) = true ->
  step debug w op = Ok w1 ->
  fUsageRefCnt (res w1) = fUsageRefCnt (res w) + usage_delta op /\
  fCommandBufferRefCnt (res w1) =
  fCommandBufferRefCnt (res w) + commandBuffer_delta op.
Proof.
  unfold counts_fit. intros [Hu Hc] Hm Hf Hstep.
  assert (Hmin : Int32.min_signed = -2147483648) by reflexivity.
  destruct op; simpl in Hm, Hf;
    repeat match goal with
           | H : _ && _ = true |- _ => apply andb_true_iff in H as [? ?]
           | H : (_ <=? _) = true |- _ => apply Z.leb_le in H
           | H : (_ <? _) = true |- _ => apply Z.ltb_lt in H
           end;
    step_cases Hstep; simpl;
    rewrite ?wrap_succ, ?wrap_pred by lia;
    split; lia.
Qed.

(** X6. Along a sequence in which every release is preceded by a matching
    acquire and no acquire is made at [INT32_MAX], each counter counts
    exactly: its final value is its initial value plus the acquisitions
    minus the releases of the sequence on that counter. *)
Theorem counters_count_outstanding_references :
  forall (debug : bool) (ops : list Op) (w w' : World),
    counts_fit w ->
    releases_matched (fUsageRefCnt (res w)) (fCommandBufferRefCnt (res w))
                     ops = true ->
    holders_fit (fUsageRefCnt (res w)) (fCommandBufferRefCnt (res w))
                ops = true ->
    run debug w ops = Ok w' ->
    fUsageRefCnt (res w') = fUsageRefCnt (res w) + net_usage ops /\
    fCommandBufferRefCnt (res w') =
    fCommandBufferRefCnt (res w) + net_commandBuffer ops.
Proof.
  intros debug ops. induction ops as [|op ops IH]; intros w w' Hw Hm Hf Hrun.
  - simpl in Hrun. injection Hrun as <-. simpl. lia.
  - apply run_cons_Ok in Hrun as [Hlive [w1 [Hstep Hrun]]].
    destruct (step_counts debug w w1 op ops Hw Hm Hf Hstep) as (Hw1 & Hm1 & Hf1).
    destruct (step_counts_exact debug w w1 op ops Hw Hm Hf Hstep) as [Eu Ec].
    destruct (IH w1 w' Hw1 Hm1 Hf1 Hrun) as [Eu' Ec'].
    cbn [net_usage net_commandBuffer]. lia.
Qed.

Lemma releases_matched_cons (u c : Z) (op : Op) (ops : list Op) :
  releases_matched u c (op :: ops) =
  releases_matched u c [op] &&
  releases_matched (u + usage_delta op) (c + commandBuffer_delta op) ops.
Proof.
  destruct op; cbn [releases_matched usage_delta commandBuffer_delta];
    rewrite ?Z.add_0_r, ?andb_true_r;
    try replace (u + -1) with (u - 1) by lia;
    try replace (c + -1) with (c - 1) by lia;
    reflexivity.
Qed.

Lemma holders_fit_cons (u c : Z) (op : Op) (ops : list Op) :
  holders_fit u c (op :: ops) =
  holders_fit u c [op] &&
  holders_fit (u + usage_delta op) (c + commandBuffer_delta op) ops.
Proof.
  destruct op; cbn [holders_fit usage_delta commandBuffer_delta];
    rewrite ?Z.add_0_r, ?andb_true_r;
    try replace (u + -1) with (u - 1) by lia;
    try replace (c + -1) with (c - 1) by lia;
    reflexivity.
Qed.

(** The assertion of a call fails exactly when its condition is false. *)
Lemma step_debug_asserted (w : World) (op : Op) :
  step true w op = AssertFail <-> asserted w op = false.
Proof.
  destruct op;
    unfold step, ref, unref, unrefCommandBuffer, refCacheOnly,
      removedFromCache, SkASSERT, hasUsageRef, hasCommandBufferRef, asserted;
    rewrite ?(Z.eqb_sym 0).
  - destruct (fUsageRefCnt (res w) =? 0); cbn [mbind result_bind negb];
      unfold Int32.fetch_add; split; intros H;
      try discriminate H; reflexivity.
  - destruct (fUsageRefCnt (res w) =? 0); cbn [mbind result_bind negb];
      unfold Int32.fetch_add; split; intros H;
      try discriminate H; reflexivity.
  - split; intros H; discriminate H.
  - destruct (fCommandBufferRefCnt (res w) =? 0);
      cbn [mbind result_bind negb];
      unfold Int32.fetch_add; split; intros H;
      try discriminate H; reflexivity.
  - split; intros H; discriminate H.
  - destruct (0 <=? fUsageRefCnt (res w)); cbn [mbind result_bind];
      unfold Int32.fetch_add; split; intros H;
      try discriminate H; reflexivity.
  - split; intros H; discriminate H.
  - split; intros H; discriminate H.
  - split; intros H; discriminate H.
  - destruct (fCalledRemovedFromCache (res w)); cbn [mbind result_bind negb];
      split; intros H; try discriminate H; reflexivity.
Qed.

Lemma step_debug_head_matched (w w1 : World) (op : Op) :
  counts_fit w ->
  step true w op = Ok w1 ->
  releases_matched (fUsageRefCnt (res w)) (fCommandBufferRefCnt (res w))
                   [op] = true.
Proof.
  unfold counts_fit. intros [Hu Hc] Hstep.
  assert (Ha : asserted w op = true).
  { destruct (asserted w op) eqn:E; [reflexivity|].
    apply step_debug_asserted in E. congruence. }
  destruct op; cbn [releases_matched]; try reflexivity;
    unfold asserted in Ha; apply negb_true_iff in Ha;
    apply Z.eqb_neq in Ha; rewrite andb_true_r; apply Z.leb_le; lia.
Qed.

(** X7. A debug build detects every unmatched release: if a sequence that
    makes no acquire at [INT32_MAX] runs to its end from non-negative
    counters, then each of its releases was preceded by a matching
    acquire. *)
Theorem debug_build_detects_unmatched_release :
  forall (ops : list Op) (w w' : World),
    counts_fit w ->
    holders_fit (fUsageRefCnt (res w)) (fCommandBufferRefCnt (res w))
                ops = true ->
    run true w ops = Ok w' ->
    releases_matched (fUsageRefCnt (res w)) (fCommandBufferRefCnt (res w))
                     ops = true.
Proof.
  induction ops as [|op ops IH]; intros w w' Hw Hf Hrun; [reflexivity|].
  apply run_cons_Ok in Hrun as [Hlive [w1 [Hstep Hrun]]].
  pose proof (step_debug_head_matched w w1 op Hw Hstep) as Hm0.
  rewrite holders_fit_cons in Hf. apply andb_true_iff in Hf as [Hf0 Hf].
  destruct (step_counts true w w1 op [] Hw Hm0 Hf0 Hstep) as (Hw1 & _ & _).
  destruct (step_counts_exact true w w1 op [] Hw Hm0 Hf0 Hstep) as [Eu Ec].
  rewrite releases_matched_cons, Hm0. cbn [andb].
  rewrite <- Eu, <- Ec in Hf |- *.
  exact (IH w1 w' Hw1 Hf Hrun).
Qed.

Lemma step_without_refCacheOnly (w w1 : World) (op : Op) :
  fUsageRefCnt (res w) = 0 ->
  is_refCacheOnly op = false ->
  step true w op = Ok w1 ->
  fUsageRefCnt (res w1) = 0 /\ is_ref_or_unref op = false.
Proof.
  intros Hu Hop Hstep. destruct op; try discriminate Hop;
    unfold step, ref, unref, unrefCommandBuffer, removedFromCache,
      refCommandBuffer, SkASSERT, hasUsageRef, Int32.fetch_add in Hstep;
    rewrite ?Hu in Hstep; cbn [Z.eqb mbind result_bind] in Hstep;
    try discriminate;
    repeat match type of Hstep with
           | context [if ?b then _ else _] => destruct b
           end;
    try discriminate;
    injection Hstep as <-; simpl; auto.
Qed.

(** X8. Only the cache can add the first usage reference. In a debug build,
    starting from a usage count of zero, a sequence without [refCacheOnly]
    that runs to its end contains no [ref] and no [unref], and the usage
    count is still zero after it. *)
Theorem first_usage_ref_needs_refCacheOnly :
  forall (ops : list Op) (w w' : World),
    fUsageRefCnt (res w) = 0 ->
    forallb (fun op => negb (is_refCacheOnly op)) ops = true ->
    run true w ops = Ok w' ->
    fUsageRefCnt (res w') = 0 /\
    forallb (fun op => negb (is_ref_or_unref op)) ops = true.
Proof.
  induction ops as [|op ops IH]; intros w w' Hu Hops Hrun.
  - simpl in Hrun. injection Hrun as <-. auto.
  - simpl in Hops. apply andb_true_iff in Hops as [Hop Hops].
    apply negb_true_iff in Hop.
    apply run_cons_Ok in Hrun as [Hlive [w1 [Hstep Hrun]]].
    destruct (step_without_refCacheOnly w w1 op Hu Hop Hstep) as [Hu1 Hop1].
    destruct (IH w1 w' Hu1 Hops Hrun) as [Hu' Hall].
    split; [exact Hu'|]. simpl. rewrite Hop1, Hall. reflexivity.
Qed.

(** X9. The assertions of the header, call by call: in a debug build [ref]
    and [unref] fail exactly on a usage count of zero (a negative count
    passes), [unrefCommandBuffer] exactly on a command-buffer count of zero,
    [refCacheOnly] exactly on a negative usage count, [removedFromCache]
    exactly when it has been called before; no other call fails. *)
Theorem assertion_fails_iff_condition_false :
  forall (w : World) (op : Op),
    step true w op = AssertFail <-> asserted w op = false.
Proof.
  intros w op. exact (step_debug_asserted w op).
Qed.

Lemma step_last_stores (debug : bool) (w w1 : World) (op : Op) :
  step debug w op = Ok w1 ->
  forall ops,
    last_setKey (key (res w)) (op :: ops) = last_setKey (key (res w1)) ops /\
    last_setTimestamp (timestamp (res w)) (op :: ops) =
    last_setTimestamp (timestamp (res w1)) ops /\
    last_storeCacheIndex (accessCacheIndex_load (res w)) (op :: ops) =
    last_storeCacheIndex (accessCacheIndex_load (res w1)) ops.
Proof.
  intros Hstep ops. destruct op; step_cases Hstep; repeat split.
Qed.

(** X10. The last store wins. After any sequence of calls that runs to its
    end, [key] returns the argument of the last [setKey] of the sequence,
    [timestamp] that of the last [setTimestamp], and the cache index is the
    last value stored through [accessCacheIndex]; a field the sequence does
    not store is unchanged. *)
Theorem getters_return_last_store :
  forall (debug : bool) (ops : list Op) (w w' : World),
    run debug w ops = Ok w' ->
    key (res w') = last_setKey (key (res w)) ops /\
    timestamp (res w') = last_setTimestamp (timestamp (res w)) ops /\
    accessCacheIndex_load (res w') =
    last_storeCacheIndex (accessCacheIndex_load (res w)) ops.
Proof.
  intros debug ops. induction ops as [|op ops IH]; intros w w' Hrun.
  - simpl in Hrun. injection Hrun as <-. auto.
  - apply run_cons_Ok in Hrun as [Hlive [w1 [Hstep Hrun]]].
    destruct (step_last_stores debug w w1 op Hstep ops) as (Ek & Et & Ei).
    rewrite Ek, Et, Ei. exact (IH w1 w' Hrun).
Qed.

(** *** The lock and the teardown under interleaving *)

Lemma tally_two (f : Thread -> bool) (ts : list Thread) :
  forall (i j : nat) (ti tj : Thread),
    i <> j ->
    ts !! i = Some ti -> ts !! j = Some tj ->
    f ti = true -> f tj = true ->
    2 <= tally f ts.
Proof.
  induction ts as [|t0 ts IH]; intros i j ti tj Hne Hi Hj Fi Fj;
    [discriminate|].
  destruct i as [|i], j as [|j]; simpl in Hi, Hj; cbn [tally].
  - congruence.
  - injection Hi as ->. rewrite Fi.
    pose proof (tally_lookup f ts j tj Hj) as L. rewrite Fj in L.
    simpl in *. lia.
  - injection Hj as ->. rewrite Fj.
    pose proof (tally_lookup f ts i ti Hi) as L. rewrite Fi in L.
    simpl in *. lia.
  - assert (Hne' : i <> j) by congruence.
    specialize (IH i j ti tj Hne' Hi Hj Fi Fj).
    destruct (f t0); simpl; lia.
Qed.

Lemma thread_step_lock_discipline (debug : bool) (cfg cfg' : Config) (i : nat) :
  lock_discipline cfg ->
  thread_step debug cfg i = Ok cfg' ->
  lock_discipline cfg'.
Proof.
  unfold lock_discipline. intros Hl Hstep. apply thread_step_Ok in Hstep.
  unfold thread_action in Hstep.
  destruct (threads cfg !! i) as [[c p]|] eqn:Hi;
    [|injection Hstep as <-; exact Hl].
  destruct cfg as [w m ts]. simpl in *.
  pose proof (tally_lookup in_locked_block _ _ _ Hi) as L.
  assert (Hm : 0 <= Z.b2z m <= 1) by (destruct m; simpl; lia).
  destruct p; simpl in Hstep.
  - destruct m; injection Hstep as <-; simpl; [exact Hl|].
    unfold goto. rewrite (tally_insert _ _ _ _ _ Hi). simpl in *. lia.
  - destruct (SkASSERT debug (hasRef_of c (res w))); try discriminate.
    injection Hstep as <-. simpl. unfold goto.
    rewrite (tally_insert _ _ _ _ _ Hi). simpl in *. lia.
  - unfold Int32.fetch_add in Hstep. injection Hstep as <-. simpl.
    unfold goto. rewrite (tally_insert _ _ _ _ _ Hi).
    destruct (1 =? counter_of c (res w)); simpl in *; lia.
  - injection Hstep as <-. simpl. unfold goto.
    rewrite (tally_insert _ _ _ _ _ Hi). simpl in *. lia.
  - injection Hstep as <-. simpl. unfold goto.
    rewrite (tally_insert _ _ _ _ _ Hi). simpl in *. lia.
  - injection Hstep as <-. simpl. unfold goto.
    rewrite (tally_insert _ _ _ _ _ Hi). simpl in *. lia.
  - injection Hstep as <-. exact Hl.
Qed.

Lemma exec_lock_discipline (debug : bool) (schedule : list nat) :
  forall cfg cfg',
    lock_discipline cfg ->
    exec debug cfg schedule = Ok cfg' ->
    lock_discipline cfg'.
Proof.
  induction schedule as [|i schedule IH]; intros cfg cfg' Hl Hexec.
  - injection Hexec as <-. exact Hl.
  - change (exec debug cfg (i :: schedule)) with
      (c ← thread_step debug cfg i; exec debug c schedule) in Hexec.
    destruct (thread_step debug cfg i) as [cfg1| |] eqn:Hstep; try discriminate.
    apply (IH cfg1 cfg'); [|exact Hexec].
    exact (thread_step_lock_discipline debug cfg cfg1 i Hl Hstep).
Qed.

(** X11. [fUnrefMutex] gives mutual exclusion. Whatever the counters hold
    and whatever calls race, in every configuration an interleaving reaches
    from threads that are about to start, two threads inside a locked block
    are the same thread, and a thread is inside a locked block only while
    the mutex is held. *)
Theorem locked_blocks_are_mutually_exclusive :
  forall (debug : bool) (w : World) (ts : list Thread) (schedule : list nat)
         (cfg' : Config),
    forallb about_to_start ts = true ->
    exec debug (mkConfig w false ts) schedule = Ok cfg' ->
    forall (i j : nat) (ti tj : Thread),
      threads cfg' !! i = Some ti ->
      threads cfg' !! j = Some tj ->
      in_locked_block ti = true ->
      in_locked_block tj = true ->
      i = j /\ fUnrefMutex cfg' = true.
Proof.
  intros debug w ts schedule cfg' Hall Hexec i j ti tj Hi Hj Fi Fj.
  assert (Hl : lock_discipline cfg').
  { apply (exec_lock_discipline debug schedule (mkConfig w false ts) cfg');
      [|exact Hexec].
    unfold lock_discipline. simpl.
    rewrite (tally_zero_on about_to_start in_locked_block ts)
      by (try exact Hall; by_pc).
    reflexivity. }
  unfold lock_discipline in Hl.
  assert (Hm : 0 <= Z.b2z (fUnrefMutex cfg') <= 1)
    by (destruct (fUnrefMutex cfg'); simpl; lia).
  pose proof (tally_lookup in_locked_block _ _ _ Hi) as L. rewrite Fi in L.
  simpl in L. split.
  - destruct (Nat.eq_dec i j) as [E|Hne]; [exact E|].
    pose proof (tally_two in_locked_block _ i j ti tj Hne Hi Hj Fi Fj). lia.
  - destruct (fUnrefMutex cfg'); [reflexivity | simpl in *; lia].
Qed.

Lemma exec_race_invariant_of_run (debug : bool) (g0 : nat)
      (rc : option ResourceCache) (schedule : list nat) (cfg cfg' : Config) :
  race_invariant g0 rc cfg ->
  exec debug cfg schedule = Ok cfg' ->
  race_invariant g0 rc cfg'.
Proof.
  intros Inv Hexec.
  destruct (exec_invariant debug g0 rc schedule cfg Inv) as (cfg'' & H & Inv').
  rewrite Hexec in H. injection H as ->. exact Inv'.
Qed.

(** X12. No decrement is lost in the race. When as many threads call
    [unref] as there are usage references and as many call
    [unrefCommandBuffer] as there are command-buffer references, then in
    every configuration an interleaving reaches each counter equals the
    number of calls of its kind that have not yet executed their
    [fetch_add]. *)
Theorem counters_equal_pending_releases :
  forall (debug : bool) (r : Resource) (g : nat) (ts : list Thread)
         (schedule : list nat) (cfg' : Config),
    ts <> [] ->
    forallb about_to_start ts = true ->
    fUsageRefCnt r = calls_of CallUnref ts ->
    fCommandBufferRefCnt r = calls_of CallUnrefCommandBuffer ts ->
    fUsageRefCnt r <= Int32.max_signed ->
    fCommandBufferRefCnt r <= Int32.max_signed ->
    exec debug (mkConfig (mkWorld r g) false ts) schedule = Ok cfg' ->
    fUsageRefCnt (res (world cfg')) = tally (awaiting CallUnref) (threads cfg') /\
    fCommandBufferRefCnt (res (world cfg')) =
    tally (awaiting CallUnrefCommandBuffer) (threads cfg').
Proof.
  intros debug r g ts schedule cfg' Hne Hall Hu Hc Humax Hcmax Hexec.
  destruct (wasDestroyed r) eqn:Hd.
  - rewrite (exec_destroyed debug schedule (mkConfig (mkWorld r g) false ts)
              cfg' Hd Hall Hexec). simpl.
    rewrite Hu, Hc.
    split; (apply (tally_ext_on about_to_start); [by_pc | exact Hall]).
  - pose proof (initial_race_invariant r g ts Hne Hall Hu Hc Humax Hcmax Hd)
      as Inv.
    pose proof (exec_race_invariant_of_run debug g _ schedule _ cfg' Inv Hexec)
      as (_ & Iu & Ic & _).
    split; [exact Iu | exact Ic].
Qed.

(** X13. The teardown runs outside the lock and after everybody else is
    done with the resource. When as many threads call [unref] as there are
    usage references and as many call [unrefCommandBuffer] as there are
    command-buffer references, then in every configuration an interleaving
    reaches in which some thread has left the locked block with
    [shouldFree] set, the mutex is free and no thread has a statement left
    that reads or writes the resource or its mutex: the other calls only
    have their own test of [shouldFree] to make, or have returned. *)
Theorem teardown_runs_after_last_access :
  forall (debug : bool) (r : Resource) (g : nat) (ts : list Thread)
         (schedule : list nat) (cfg' : Config) (i : nat) (t : Thread),
    ts <> [] ->
    forallb about_to_start ts = true ->
    fUsageRefCnt r = calls_of CallUnref ts ->
    fCommandBufferRefCnt r = calls_of CallUnrefCommandBuffer ts ->
    fUsageRefCnt r <= Int32.max_signed ->
    fCommandBufferRefCnt r <= Int32.max_signed ->
    exec debug (mkConfig (mkWorld r g) false ts) schedule = Ok cfg' ->
    threads cfg' !! i = Some t ->
    runs_teardown t = true ->
    fUnrefMutex cfg' = false /\
    forall (j : nat) (t' : Thread),
      threads cfg' !! j = Some t' -> touches_resource t' = false.
Proof.
  intros debug r g ts schedule cfg' i t Hne Hall Hu Hc Humax Hcmax Hexec
         Hi Ht.
  destruct (wasDestroyed r) eqn:Hd.
  { rewrite (exec_destroyed debug schedule (mkConfig (mkWorld r g) false ts)
              cfg' Hd Hall Hexec) in Hi.
    simpl in Hi. pose proof (forallb_lookup about_to_start _ i t Hall Hi) as Hs.
    destruct t as [c0 []]; discriminate. }
  pose proof (initial_race_invariant r g ts Hne Hall Hu Hc Humax Hcmax Hd)
    as Inv.
  pose proof (exec_race_invariant_of_run debug g _ schedule _ cfg' Inv Hexec)
    as Inv'.
  destruct Inv' as (_ & Iu & Ic & _ & _ & Im & _ & _ & _ & _ & It0 & _ & _
                    & _ & Hk').
  unfold teardown_unlocked in Hk'.
  pose proof (tally_lookup runs_teardown _ _ _ Hi) as L. rewrite Ht in L.
  simpl in L. specialize (Hk' L).
  pose proof (runs_teardown_told (threads cfg')) as M.
  destruct (It0 ltac:(lia)) as (Hu0 & Hc0 & _).
  split.
  - destruct (fUnrefMutex cfg'); [simpl in Im; lia | reflexivity].
  - intros j t' Hj.
    pose proof (tally_lookup (awaiting CallUnref) _ _ _ Hj) as L1.
    pose proof (tally_lookup (awaiting CallUnrefCommandBuffer) _ _ _ Hj) as L2.
    pose proof (tally_lookup in_locked_block _ _ _ Hj) as L3.
    destruct t' as [[] []]; simpl in *; try reflexivity; lia.
Qed.

(** *** Interleavings and sequential runs *)

Lemma unref_counted (debug : bool) (w : World) :
  fUsageRefCnt (res w) <> 0 ->
  unref debug w =
  Ok (if (1 =? fUsageRefCnt (res w)) &&
         notifyARefIsZero
           (with_fUsageRefCnt (Int32.wrap (fUsageRefCnt (res w) + -1)) (res w))
           kUsageRef
      then internalDispose
             (with_res (with_fUsageRefCnt
                          (Int32.wrap (fUsageRefCnt (res w) + -1)) (res w)) w)
      else with_res (with_fUsageRefCnt
                       (Int32.wrap (fUsageRefCnt (res w) + -1)) (res w)) w).
Proof.
  intros H0. unfold unref, SkASSERT, Int32.fetch_add.
  rewrite (proj2 (hasUsageRef_true (res w)) H0).
  destruct (1 =? fUsageRefCnt (res w)); destruct debug; reflexivity.
Qed.

Lemma unrefCommandBuffer_counted (debug : bool) (w : World) :
  fCommandBufferRefCnt (res w) <> 0 ->
  unrefCommandBuffer debug w =
  Ok (if (1 =? fCommandBufferRefCnt (res w)) &&
         notifyARefIsZero
           (with_fCommandBufferRefCnt
              (Int32.wrap (fCommandBufferRefCnt (res w) + -1)) (res w))
           kCommandBufferRef
      then internalDispose
             (with_res (with_fCommandBufferRefCnt
                          (Int32.wrap (fCommandBufferRefCnt (res w) + -1))
                          (res w)) w)
      else with_res (with_fCommandBufferRefCnt
                       (Int32.wrap (fCommandBufferRefCnt (res w) + -1))
                       (res w)) w).
Proof.
  intros H0. unfold unrefCommandBuffer, SkASSERT, Int32.fetch_add.
  rewrite (proj2 (hasCommandBufferRef_true (res w)) H0).
  destruct (1 =? fCommandBufferRefCnt (res w)); destruct debug; reflexivity.
Qed.

Lemma linearized_ext (cfg cfg' : Config) (ws : World) :
  world cfg' = world cfg ->
  tally (notifying CallUnref) (threads cfg') =
  tally (notifying CallUnref) (threads cfg) ->
  tally (notifying CallUnrefCommandBuffer) (threads cfg') =
  tally (notifying CallUnrefCommandBuffer) (threads cfg) ->
  tally pending_dispose (threads cfg') = tally pending_dispose (threads cfg) ->
  linearized cfg ws -> linearized cfg' ws.
Proof.
  unfold linearized. intros Hw E1 E2 E3 HR. rewrite Hw, E1, E2, E3. exact HR.
Qed.

Ltac linearized_same HR Hi :=
  refine (linearized_ext _ _ _ _ _ _ _ HR);
  [reflexivity | | |];
  simpl; unfold goto; rewrite (tally_insert _ _ _ _ _ Hi); simpl; lia.

Lemma thread_step_linearized (debug : bool) (g0 : nat)
      (rc : option ResourceCache) (cfg cfg' : Config) (i : nat) (ws : World) :
  race_invariant g0 rc cfg ->
  linearized cfg ws ->
  thread_step debug cfg i = Ok cfg' ->
  exists ws', run debug ws (decrements cfg i) = Ok ws' /\ linearized cfg' ws'.
Proof.
  intros Inv HR Hstep. apply thread_step_Ok in Hstep.
  unfold thread_action in Hstep. unfold decrements.
  destruct (threads cfg !! i) as [[c p]|] eqn:Hi;
    [|injection Hstep as <-; exists ws; split; [reflexivity | exact HR]].
  destruct Inv as (Irc & Iu & Ic & Iumax & Icmax & Im & Inl & Inu & Inc
                   & It1 & It0 & Itd & Ig & Ialive & Iunl).
  destruct cfg as [[r g] m ts]. revert HR. simpl in *. intros HR.
  pose proof (tally_lookup (awaiting CallUnref) _ _ _ Hi) as L1.
  pose proof (tally_lookup (awaiting CallUnrefCommandBuffer) _ _ _ Hi) as L2.
  pose proof (tally_lookup (notifying CallUnref) _ _ _ Hi) as L3.
  pose proof (tally_lookup (notifying CallUnrefCommandBuffer) _ _ _ Hi) as L4.
  pose proof (tally_lookup in_locked_block _ _ _ Hi) as L5.
  pose proof (tally_lookup told_to_free _ _ _ Hi) as L6.
  pose proof (tally_lookup pending_dispose _ _ _ Hi) as L8.
  pose proof (tally_lookup locked_elsewhere _ _ _ Hi) as L9.
  pose proof (tally_nonneg (notifying CallUnref) ts) as N3.
  pose proof (tally_nonneg (notifying CallUnrefCommandBuffer) ts) as N4.
  pose proof (tally_nonneg has_disposed ts) as N7.
  pose proof (tally_nonneg pending_dispose ts) as N8.
  pose proof (tally_nonneg locked_elsewhere ts) as N9.
  assert (Hmin : Int32.min_signed = -2147483648) by reflexivity.
  assert (Hm : 0 <= Z.b2z m <= 1) by (destruct m; simpl; lia).
  destruct p; simpl in Hstep.
  - (* taking the mutex *)
    exists ws. split; [reflexivity|].
    destruct m; injection Hstep as <-; [exact HR|].
    destruct c; linearized_same HR Hi.
  - (* the assertion *)
    exists ws. split; [reflexivity|].
    destruct (SkASSERT debug (hasRef_of c r)); try discriminate.
    injection Hstep as <-. destruct c; linearized_same HR Hi.
  - (* the decrement *)
    destruct HR as (HR1 & _).
    assert (Hws : ws = mkWorld r g).
    { apply HR1; destruct c; simpl in *; lia. }
    subst ws. unfold Int32.fetch_add in Hstep. injection Hstep as <-.
    assert (Hlive : wasDestroyed r = false).
    { unfold wasDestroyed. destruct (fGpu r); [reflexivity|].
      specialize (Ialive eq_refl). exfalso. destruct c; simpl in *; lia. }
    destruct c; cbn [op_of_call]; rewrite run_cons_alive by exact Hlive;
      cbn [run step mbind result_bind].
    + rewrite unref_counted by (simpl in *; lia). cbn [mbind result_bind].
      eexists. split; [reflexivity|].
      unfold linearized. simpl. unfold goto.
      rewrite !(tally_insert _ _ _ _ _ Hi).
      destruct (Z.eqb_spec 1 (fUsageRefCnt r)); simpl in *;
        (repeat apply conj; intros; first [reflexivity | exfalso; lia]).
    + rewrite unrefCommandBuffer_counted by (simpl in *; lia).
      cbn [mbind result_bind].
      eexists. split; [reflexivity|].
      unfold linearized. simpl. unfold goto.
      rewrite !(tally_insert _ _ _ _ _ Hi).
      destruct (Z.eqb_spec 1 (fCommandBufferRefCnt r)); simpl in *;
        (repeat apply conj; intros; first [reflexivity | exfalso; lia]).
  - (* the arbitration *)
    exists ws. split; [reflexivity|].
    injection Hstep as <-.
    destruct HR as (_ & HR2 & HR3 & _). simpl in HR2, HR3.
    unfold linearized. simpl. unfold goto.
    rewrite !(tally_insert _ _ _ _ _ Hi).
    destruct c; simpl in *.
    + specialize (HR2 ltac:(lia)). subst ws.
      destruct (notifyARefIsZero r kUsageRef); simpl;
        (repeat apply conj; intros; first [reflexivity | exfalso; lia]).
    + specialize (HR3 ltac:(lia)). subst ws.
      destruct (notifyARefIsZero r kCommandBufferRef); simpl;
        (repeat apply conj; intros; first [reflexivity | exfalso; lia]).
  - (* leaving the locked block *)
    exists ws. split; [reflexivity|].
    injection Hstep as <-. destruct c, shouldFree; linearized_same HR Hi.
  - (* the test of shouldFree *)
    exists ws. split; [reflexivity|].
    injection Hstep as <-.
    destruct shouldFree; [|destruct c; linearized_same HR Hi].
    destruct HR as (_ & _ & _ & HR4).
    destruct c; simpl in *; specialize (HR4 ltac:(lia)); subst ws;
      unfold linearized; simpl; unfold goto;
      rewrite !(tally_insert _ _ _ _ _ Hi); simpl;
      (repeat apply conj; intros; first [reflexivity | exfalso; lia]).
  - (* returned *)
    exists ws. split; [reflexivity|].
    injection Hstep as <-. exact HR.
Qed.

Lemma run_app (debug : bool) (ops1 ops2 : list Op) :
  forall w w1,
    run debug w ops1 = Ok w1 ->
    run debug w (ops1 ++ ops2) = run debug w1 ops2.
Proof.
  induction ops1 as [|op ops1 IH]; intros w w1 H1.
  - injection H1 as <-. reflexivity.
  - apply run_cons_Ok in H1 as [Hlive [x [Hstep H1]]].
    change ((op :: ops1) ++ ops2) with (op :: (ops1 ++ ops2)).
    rewrite run_cons_alive by exact Hlive. rewrite Hstep.
    exact (IH x w1 H1).
Qed.

Lemma exec_linearized (debug : bool) (g0 : nat) (rc : option ResourceCache)
      (schedule : list nat) :
  forall cfg cfg' ws,
    race_invariant g0 rc cfg ->
    linearized cfg ws ->
    exec debug cfg schedule = Ok cfg' ->
    exists ws',
      run debug ws (decrement_order debug cfg schedule) = Ok ws' /\
      linearized cfg' ws'.
Proof.
  induction schedule as [|i schedule IH]; intros cfg cfg' ws Inv HR Hexec.
  - injection Hexec as <-. exists ws. split; [reflexivity | exact HR].
  - change (exec debug cfg (i :: schedule)) with
      (c ← thread_step debug cfg i; exec debug c schedule) in Hexec.
    cbn [decrement_order].
    destruct (thread_step debug cfg i) as [cfg1| |] eqn:Hstep; try discriminate.
    destruct (thread_step_linearized debug g0 rc cfg cfg1 i ws Inv HR Hstep)
      as (ws1 & Hrun1 & HR1).
    assert (Inv1 : race_invariant g0 rc cfg1).
    { destruct (thread_step_invariant debug g0 rc cfg i Inv) as (c2 & H2 & Inv2).
      rewrite Hstep in H2. injection H2 as ->. exact Inv2. }
    destruct (IH cfg1 cfg' ws1 Inv1 HR1 Hexec) as (ws' & Hrun' & HR').
    exists ws'. split; [|exact HR'].
    rewrite (run_app debug _ _ ws ws1 Hrun1). exact Hrun'.
Qed.

Lemma net_usage_app (ops1 ops2 : list Op) :
  net_usage (ops1 ++ ops2) = net_usage ops1 + net_usage ops2.
Proof. induction ops1 as [|op ops1 IH]; simpl; lia. Qed.

Lemma net_commandBuffer_app (ops1 ops2 : list Op) :
  net_commandBuffer (ops1 ++ ops2) =
  net_commandBuffer ops1 + net_commandBuffer ops2.
Proof. induction ops1 as [|op ops1 IH]; simpl; lia. Qed.

Lemma thread_step_decrements (debug : bool) (cfg cfg' : Config) (i : nat) :
  thread_step debug cfg i = Ok cfg' ->
  tally (awaiting CallUnref) (threads cfg') =
  tally (awaiting CallUnref) (threads cfg) + net_usage (decrements cfg i) /\
  tally (awaiting CallUnrefCommandBuffer) (threads cfg') =
  tally (awaiting CallUnrefCommandBuffer) (threads cfg) +
  net_commandBuffer (decrements cfg i).
Proof.
  intros Hstep. apply thread_step_Ok in Hstep.
  unfold thread_action in Hstep. unfold decrements.
  destruct (threads cfg !! i) as [[c p]|] eqn:Hi;
    [|injection Hstep as <-; simpl; lia].
  destruct cfg as [w m ts]. simpl in *.
  destruct p; simpl in Hstep.
  - destruct m; injection Hstep as <-; simpl; [lia|].
    unfold goto. rewrite !(tally_insert _ _ _ _ _ Hi).
    destruct c; simpl; lia.
  - destruct (SkASSERT debug (hasRef_of c (res w))); try discriminate.
    injection Hstep as <-. simpl. unfold goto.
    rewrite !(tally_insert _ _ _ _ _ Hi). destruct c; simpl; lia.
  - unfold Int32.fetch_add in Hstep. injection Hstep as <-. simpl.
    unfold goto. rewrite !(tally_insert _ _ _ _ _ Hi).
    destruct c; destruct (1 =? _); simpl; lia.
  - injection Hstep as <-. simpl. unfold goto.
    rewrite !(tally_insert _ _ _ _ _ Hi). destruct c; simpl; lia.
  - injection Hstep as <-. simpl. unfold goto.
    rewrite !(tally_insert _ _ _ _ _ Hi). destruct c; simpl; lia.
  - injection Hstep as <-. simpl. unfold goto.
    rewrite !(tally_insert _ _ _ _ _ Hi). destruct c; simpl; lia.
  - injection Hstep as <-. simpl. lia.
Qed.

Lemma exec_decrement_order (debug : bool) (schedule : list nat) :
  forall cfg cfg',
    exec debug cfg schedule = Ok cfg' ->
    tally (awaiting CallUnref) (threads cfg') =
    tally (awaiting CallUnref) (threads cfg) +
    net_usage (decrement_order debug cfg schedule) /\
    tally (awaiting CallUnrefCommandBuffer) (threads cfg') =
    tally (awaiting CallUnrefCommandBuffer) (threads cfg) +
    net_commandBuffer (decrement_order debug cfg schedule).
Proof.
  induction schedule as [|i schedule IH]; intros cfg cfg' Hexec.
  - injection Hexec as <-. simpl. lia.
  - change (exec debug cfg (i :: schedule)) with
      (c ← thread_step debug cfg i; exec debug c schedule) in Hexec.
    cbn [decrement_order].
    destruct (thread_step debug cfg i) as [cfg1| |] eqn:Hstep; try discriminate.
    destruct (thread_step_decrements debug cfg cfg1 i Hstep) as [E1 E2].
    destruct (IH cfg1 cfg' Hexec) as [E3 E4].
    rewrite net_usage_app, net_commandBuffer_app. lia.
Qed.

(** X14. The racing releases are serializable. When as many threads call
    [unref] as there are usage references and as many call
    [unrefCommandBuffer] as there are command-buffer references, an
    interleaving after which all calls have returned leaves the resource
    and the number of [freeGpuData] invocations exactly as the sequential
    run of the same calls does, taken in the order in which their
    [fetch_add]s happened; that order releases every reference once. *)
Theorem racing_releases_are_serializable :
  forall (debug : bool) (r : Resource) (g : nat) (ts : list Thread)
         (schedule : list nat) (cfg' : Config),
    ts <> [] ->
    forallb about_to_start ts = true ->
    fUsageRefCnt r = calls_of CallUnref ts ->
    fCommandBufferRefCnt r = calls_of CallUnrefCommandBuffer ts ->
    fUsageRefCnt r <= Int32.max_signed ->
    fCommandBufferRefCnt r <= Int32.max_signed ->
    exec debug (mkConfig (mkWorld r g) false ts) schedule = Ok cfg' ->
    forallb has_returned (threads cfg') = true ->
    run debug (mkWorld r g)
        (decrement_order debug (mkConfig (mkWorld r g) false ts) schedule) =
    Ok (world cfg') /\
    net_usage
      (decrement_order debug (mkConfig (mkWorld r g) false ts) schedule) =
    - fUsageRefCnt r /\
    net_commandBuffer
      (decrement_order debug (mkConfig (mkWorld r g) false ts) schedule) =
    - fCommandBufferRefCnt r.
Proof.
  intros debug r g ts schedule cfg' Hne Hall Hu Hc Humax Hcmax Hexec Hret.
  assert (Hd : wasDestroyed r = false).
  { destruct (wasDestroyed r) eqn:Hd; [exfalso | reflexivity].
    rewrite (exec_destroyed debug schedule (mkConfig (mkWorld r g) false ts)
               cfg' Hd Hall Hexec) in Hret.
    destruct ts as [|[c0 p0] ts0]; [congruence|].
    simpl in Hall, Hret. destruct p0; discriminate. }
  pose proof (initial_race_invariant r g ts Hne Hall Hu Hc Humax Hcmax Hd)
    as Inv.
  assert (HR : linearized (mkConfig (mkWorld r g) false ts) (mkWorld r g)).
  { unfold linearized. simpl.
    rewrite (tally_zero_on about_to_start (notifying CallUnref) ts),
      (tally_zero_on about_to_start (notifying CallUnrefCommandBuffer) ts),
      (tally_zero_on about_to_start pending_dispose ts)
      by (try exact Hall; by_pc).
    repeat apply conj; intros; first [reflexivity | exfalso; lia]. }
  destruct (exec_linearized debug g _ schedule _ cfg' _ Inv HR Hexec)
    as (ws' & Hrun & (HR1 & _)).
  destruct (exec_decrement_order debug schedule _ cfg' Hexec) as [E1 E2].
  simpl in E1, E2.
  destruct Inv as (_ & Iu & Ic & _). simpl in Iu, Ic.
  rewrite (tally_zero_on has_returned (awaiting CallUnref) _) in E1
    by (try exact Hret; by_pc).
  rewrite (tally_zero_on has_returned (awaiting CallUnrefCommandBuffer) _) in E2
    by (try exact Hret; by_pc).
  split; [|split; lia].
  rewrite Hrun. f_equal. apply HR1.
  - apply (tally_zero_on has_returned); [by_pc | exact Hret].
  - apply (tally_zero_on has_returned); [by_pc | exact Hret].
  - apply (tally_zero_on has_returned); [by_pc | exact Hret].
Qed.

(** *** The call that decides *)

Lemma decrement_order_releases (debug : bool) (schedule : list nat) :
  forall cfg, forallb is_release (decrement_order debug cfg schedule) = true.
Proof.
  induction schedule as [|i schedule IH]; intros cfg; [reflexivity|].
  cbn [decrement_order]. rewrite forallb_app. apply andb_true_iff. split.
  - unfold decrements.
    destruct (threads cfg !! i) as [[[] []]|]; reflexivity.
  - destruct (thread_step debug cfg i); [apply IH | reflexivity | reflexivity].
Qed.

Lemma net_release_only (ops : list Op) :
  forallb is_release ops = true ->
  net_usage ops <= 0 /\ net_commandBuffer ops <= 0 /\
  net_usage ops + net_commandBuffer ops = - Z.of_nat (length ops).
Proof.
  induction ops as [|op ops IH]; [simpl; lia|].
  intros H. simpl in H. apply andb_true_iff in H as [Hop H].
  specialize (IH H). cbn [net_usage net_commandBuffer length].
  rewrite Nat2Z.inj_succ.
  destruct op; try discriminate Hop; simpl; lia.
Qed.

Lemma fully_released_with_fUsageRefCnt (n : Z) (r : Resource) :
  fully_released (with_fUsageRefCnt n r) = fully_released r.
Proof. reflexivity. Qed.

Lemma fully_released_with_fCommandBufferRefCnt (n : Z) (r : Resource) :
  fully_released (with_fCommandBufferRefCnt n r) = fully_released r.
Proof. reflexivity. Qed.

Lemma fully_released_same (r : Resource) :
  fUsageRefCnt r = 0 -> fCommandBufferRefCnt r = 0 -> fully_released r = r.
Proof. destruct r. simpl. intros -> ->. reflexivity. Qed.

(** One release on an entry that is there: if it leaves a reference, it
    only decrements; if it releases the last reference, the entry is
    handed back to its return target or torn down. *)
Lemma step_release (debug : bool) (w w1 : World) (c : Release) :
  1 <= counter_of c (res w) <= Int32.max_signed ->
  0 <= fUsageRefCnt (res w) -> 0 <= fCommandBufferRefCnt (res w) ->
  wasDestroyed (res w) = false ->
  step debug w (op_of_call c) = Ok w1 ->
  let r1 := with_counter c (counter_of c (res w) - 1) (res w) in
  w1 = if hasAnyRefs r1 then with_res r1 w
       else if reclaimedByCache r1 (removedRef_of c) then with_res r1 w
            else internalDispose (with_res r1 w).
Proof.
  intros Hcnt Hu Hc Hd Hstep.
  assert (Hmin : Int32.min_signed = -2147483648) by reflexivity.
  destruct c; cbn [op_of_call step counter_of with_counter removedRef_of]
                in Hcnt, Hstep |- *.
  - rewrite unref_counted in Hstep by lia. injection Hstep as <-.
    rewrite wrap_pred by lia.
    set (r1 := with_fUsageRefCnt (fUsageRefCnt (res w) - 1) (res w)).
    unfold notifyARefIsZero, cacheHasRelinquished.
    change (wasDestroyed r1) with (wasDestroyed (res w)). rewrite Hd.
    destruct (Z.eqb_spec 1 (fUsageRefCnt (res w))) as [E|E]; cbn [andb].
    + destruct (hasAnyRefs r1); [reflexivity|].
      destruct (reclaimedByCache r1 kUsageRef); reflexivity.
    + assert (Hr : hasAnyRefs r1 = true).
      { unfold hasAnyRefs.
        rewrite (proj2 (hasUsageRef_true r1)) by (subst r1; simpl; lia).
        reflexivity. }
      rewrite Hr. reflexivity.
  - rewrite unrefCommandBuffer_counted in Hstep by lia. injection Hstep as <-.
    rewrite wrap_pred by lia.
    set (r1 := with_fCommandBufferRefCnt
                 (fCommandBufferRefCnt (res w) - 1) (res w)).
    unfold notifyARefIsZero, cacheHasRelinquished.
    change (wasDestroyed r1) with (wasDestroyed (res w)). rewrite Hd.
    destruct (Z.eqb_spec 1 (fCommandBufferRefCnt (res w))) as [E|E];
      cbn [andb].
    + destruct (hasAnyRefs r1); [reflexivity|].
      destruct (reclaimedByCache r1 kCommandBufferRef); reflexivity.
    + assert (Hr : hasAnyRefs r1 = true).
      { unfold hasAnyRefs.
        rewrite (proj2 (hasCommandBufferRef_true r1))
          by (subst r1; simpl; lia).
        apply orb_true_r. }
      rewrite Hr. reflexivity.
Qed.

Lemma is_release_op_of_call (op : Op) :
  is_release op = true -> exists c, op = op_of_call c.
Proof.
  destruct op; try discriminate; intros _;
    [exists CallUnref | exists CallUnrefCommandBuffer]; reflexivity.
Qed.

(** A sequence of releases that gives back every reference of an entry
    that is there: only its last call can find both counts at zero, and
    what becomes of the entry is decided there. *)
Lemma run_releases_last (debug : bool) (ops : list Op) :
  forall w w' : World,
    ops <> [] ->
    forallb is_release ops = true ->
    net_usage ops = - fUsageRefCnt (res w) ->
    net_commandBuffer ops = - fCommandBufferRefCnt (res w) ->
    fUsageRefCnt (res w) <= Int32.max_signed ->
    fCommandBufferRefCnt (res w) <= Int32.max_signed ->
    wasDestroyed (res w) = false ->
    run debug w ops = Ok w' ->
    exists c : Release,
      last ops = Some (op_of_call c) /\
      w' = if reclaimedByCache (fully_released (res w)) (removedRef_of c)
           then with_res (fully_released (res w)) w
           else internalDispose (with_res (fully_released (res w)) w).
Proof.
  induction ops as [|op ops IH]; intros w w' Hne Hrel Hnu Hnc Humax Hcmax Hd Hrun;
    [congruence|].
  simpl in Hrel. apply andb_true_iff in Hrel as [Hop Hrel].
  destruct (net_release_only ops Hrel) as (Nu & Nc & Nlen).
  apply run_cons_Ok in Hrun as [_ [w1 [Hstep Hrun]]].
  destruct (is_release_op_of_call op Hop) as [c ->].
  cbn [net_usage net_commandBuffer] in Hnu, Hnc.
  assert (Hcnt : 1 <= counter_of c (res w) <= Int32.max_signed /\
                 0 <= fUsageRefCnt (res w) /\
                 0 <= fCommandBufferRefCnt (res w))
    by (destruct c; simpl in *; lia).
  destruct Hcnt as (Hcnt & Hu0 & Hc0).
  pose proof (step_release debug w w1 c Hcnt Hu0 Hc0 Hd Hstep) as Hw1.
  cbv zeta in Hw1.
  set (r1 := with_counter c (counter_of c (res w) - 1) (res w)) in *.
  assert (Hf1 : fully_released r1 = fully_released (res w))
    by (subst r1; destruct c; reflexivity).
  assert (Hu1 : fUsageRefCnt r1 = fUsageRefCnt (res w) + usage_delta (op_of_call c))
    by (subst r1; destruct c; simpl; lia).
  assert (Hc1 : fCommandBufferRefCnt r1 =
                fCommandBufferRefCnt (res w) + commandBuffer_delta (op_of_call c))
    by (subst r1; destruct c; simpl; lia).
  assert (Hdelta : usage_delta (op_of_call c) <= 0 /\
                   commandBuffer_delta (op_of_call c) <= 0)
    by (destruct c; simpl; lia).
  destruct ops as [|op2 ops2].
  - (* the last call *)
    injection Hrun as <-. exists c. split; [reflexivity|].
    simpl in Hnu, Hnc.
    assert (Hz : hasAnyRefs r1 = false).
    { unfold hasAnyRefs, hasUsageRef, hasCommandBufferRef.
      rewrite Hu1, Hc1.
      replace (fUsageRefCnt (res w) + usage_delta (op_of_call c)) with 0 by lia.
      replace (fCommandBufferRefCnt (res w) +
               commandBuffer_delta (op_of_call c)) with 0 by lia.
      reflexivity. }
    rewrite Hz in Hw1. rewrite <- Hf1.
    rewrite (fully_released_same r1) by lia. exact Hw1.
  - (* an earlier call *)
    assert (Hr : hasAnyRefs r1 = true).
    { cbn [length] in Nlen. rewrite Nat2Z.inj_succ in Nlen.
      unfold hasAnyRefs.
      destruct (Z.eq_dec (fUsageRefCnt r1) 0) as [Ez|Ez].
      - rewrite (proj2 (hasCommandBufferRef_true r1)) by lia.
        apply orb_true_r.
      - rewrite (proj2 (hasUsageRef_true r1)) by exact Ez. reflexivity. }
    rewrite Hr in Hw1. subst w1.
    destruct (IH (with_res r1 w) w') as (c' & Hlast & Hw').
    + discriminate.
    + exact Hrel.
    + cbn [res with_res]. lia.
    + cbn [res with_res]. lia.
    + cbn [res with_res]. lia.
    + cbn [res with_res]. lia.
    + subst r1. destruct c; exact Hd.
    + exact Hrun.
    + exists c'. split; [rewrite last_cons_cons; exact Hlast|].
      rewrite Hw'. cbn [res with_res]. rewrite Hf1.
      destruct w; reflexivity.
Qed.

(** C1 (amended). Let as many threads call [unref] as an entry that is
    there has usage references and as many call [unrefCommandBuffer] as it
    has command-buffer references, at least one in all. Under every
    interleaving of their steps no assertion fails and no call touches a
    destroyed entry, at most one call is told by [notifyARefIsZero] to
    free, [freeGpuData] is called at most once, and the interleaving can be
    extended to one after which all calls have returned.
    Once all calls have returned both counters are zero, and the call that
    decremented last has decided: if the entry was handed back to its
    return target at that release, no call was told to free, [freeGpuData]
    was not called and the entry is still there; otherwise (always so for
    an entry without return target) exactly one call was told to free,
    [freeGpuData] was called exactly once and the entry is destroyed. *)
Theorem racing_releases_dispose_once :
  forall (debug : bool) (r : Resource) (g : nat) (ts : list Thread)
         (schedule : list nat),
    ts <> [] ->
    forallb about_to_start ts = true ->
    fUsageRefCnt r = calls_of CallUnref ts ->
    fCommandBufferRefCnt r = calls_of CallUnrefCommandBuffer ts ->
    fUsageRefCnt r <= Int32.max_signed ->
    fCommandBufferRefCnt r <= Int32.max_signed ->
    wasDestroyed r = false ->
    exists cfg',
      exec debug (mkConfig (mkWorld r g) false ts) schedule = Ok cfg' /\
      tally told_to_free (threads cfg') <= 1 /\
      (freeGpuDataCalls (world cfg') <= S g)%nat /\
      (exists rest cfg'',
          exec debug (mkConfig (mkWorld r g) false ts) (schedule ++ rest) =
          Ok cfg'' /\
          forallb has_returned (threads cfg'') = true) /\
      (forallb has_returned (threads cfg') = true ->
       fUsageRefCnt (res (world cfg')) = 0 /\
       fCommandBufferRefCnt (res (world cfg')) = 0 /\
       exists c : Release,
         last (decrement_order debug (mkConfig (mkWorld r g) false ts)
                               schedule) = Some (op_of_call c) /\
         tally told_to_free (threads cfg') =
         (if reclaimedByCache (fully_released r) (removedRef_of c)
          then 0 else 1) /\
         freeGpuDataCalls (world cfg') =
         (if reclaimedByCache (fully_released r) (removedRef_of c)
          then g else S g) /\
         wasDestroyed (res (world cfg')) =
         negb (reclaimedByCache (fully_released r) (removedRef_of c))).
Proof.
  intros debug r g ts schedule Hne Hall Hu Hc Humax Hcmax Hd.
  pose proof (initial_race_invariant r g ts Hne Hall Hu Hc Humax Hcmax Hd)
    as Inv.
  destruct (exec_invariant debug g (fReturnCache r) schedule _ Inv)
    as (cfg' & Hexec & Inv').
  exists cfg'. split; [exact Hexec|].
  destruct (race_completion debug g (fReturnCache r) _ cfg' (Nat.le_refl _) Inv')
    as (rest & cfg'' & Hrest & _ & Hdone).
  assert (HR : linearized (mkConfig (mkWorld r g) false ts) (mkWorld r g)).
  { unfold linearized. simpl.
    rewrite (tally_zero_on about_to_start (notifying CallUnref) ts),
      (tally_zero_on about_to_start (notifying CallUnrefCommandBuffer) ts),
      (tally_zero_on about_to_start pending_dispose ts)
      by (try exact Hall; by_pc).
    repeat apply conj; intros; first [reflexivity | exfalso; lia]. }
  destruct (exec_linearized debug g _ schedule _ cfg' _ Inv HR Hexec)
    as (ws' & Hrun & (HR1 & _)).
  destruct (exec_decrement_order debug schedule _ cfg' Hexec) as [E1 E2].
  simpl in E1, E2.
  pose proof (decrement_order_releases
                debug schedule (mkConfig (mkWorld r g) false ts)) as Hrel.
  set (order := decrement_order debug (mkConfig (mkWorld r g) false ts)
                                schedule) in *.
  destruct Inv as (_ & Iu0 & Ic0 & _). simpl in Iu0, Ic0.
  destruct Inv' as (Irc & Iu & Ic & Iumax & Icmax & Im & Inl & Inu & Inc
                    & It1 & It0 & Itd & Ig & Ialive & Iunl).
  pose proof (tally_nonneg has_disposed (threads cfg')) as N1.
  pose proof (tally_nonneg pending_dispose (threads cfg')) as N2.
  split; [exact It1|]. split; [lia|].
  split.
  { exists rest, cfg''. split; [|exact Hdone].
    rewrite (exec_app debug schedule rest _ cfg' Hexec). exact Hrest. }
  intros Hret.
  rewrite (tally_zero_on has_returned (awaiting CallUnref) _) in Iu, E1
    by (try exact Hret; by_pc).
  rewrite (tally_zero_on has_returned (awaiting CallUnrefCommandBuffer) _)
    in Ic, E2 by (try exact Hret; by_pc).
  rewrite (tally_zero_on has_returned pending_dispose _) in Itd
    by (try exact Hret; by_pc).
  split; [exact Iu|]. split; [exact Ic|].
  assert (Hws : ws' = world cfg').
  { apply HR1; apply (tally_zero_on has_returned); solve [by_pc | exact Hret]. }
  subst ws'.
  assert (Hord : order <> []).
  { intros E. rewrite E in E1, E2. simpl in E1, E2.
    pose proof (calls_of_total ts) as Htot.
    assert (Hu' : calls_of CallUnref ts = 0) by lia.
    assert (Hc' : calls_of CallUnrefCommandBuffer ts = 0) by lia.
    destruct ts; [congruence | simpl length in Htot; lia]. }
  destruct (run_releases_last debug order (mkWorld r g) (world cfg')
              Hord Hrel ltac:(simpl; lia) ltac:(simpl; lia) Humax Hcmax Hd Hrun)
    as (c & Hlast & Hw').
  exists c. split; [exact Hlast|].
  cbn [res with_res] in Hw'. rewrite Hw' in Ig |- *.
  destruct (reclaimedByCache (fully_released r) (removedRef_of c));
    simpl in Ig |- *; (split; [lia|]); split;
    first [reflexivity | exact Hd].
Qed.

End ResourceModel.

(** ** Concrete runs

    The collaborators are instantiated by [unit]; a key is a [bool]. *)

(** Racing releases of a resource that its cache takes back. With one
    usage reference and one command-buffer reference, registered with a
    cache that reclaims what is returned to it, the thread calling [unref]
    runs first and the thread calling [unrefCommandBuffer] second: both
    calls return, both counters are zero, no call has been told to free and
    [freeGpuData] has not been called. *)
Lemma racing_releases_reclaimed_never_dispose :
  exists cfg',
    exec (fun _ _ _ => true) true
         (mkConfig
            (mkWorld (@mkResource unit bool unit false (Some tt) 1 1 true
                                  (Some tt) 0 0) 0)
            false
            [mkThread CallUnref AtLock; mkThread CallUnrefCommandBuffer AtLock])
         [0; 1; 0; 0; 0; 0; 0; 1; 1; 1; 1; 1; 1]%nat = Ok cfg' /\
    forallb has_returned (threads cfg') = true /\
    fUsageRefCnt (res (world cfg')) = 0 /\
    fCommandBufferRefCnt (res (world cfg')) = 0 /\
    tally told_to_free (threads cfg') = 0 /\
    freeGpuDataCalls (world cfg') = 0%nat.
Proof.
  eexists. split; [vm_compute; reflexivity|]. repeat split.
Qed.

(** Racing releases of an entry whose return target takes it back when its
    last usage reference is released, and not when its last command-buffer
    reference is. The thread calling [unrefCommandBuffer] decrements last:
    it is told to free, and [freeGpuData] is called once. *)
Lemma racing_releases_dispose_once_witness :
  exists cfg',
    exec (fun _ _ removedRef =>
            match removedRef with kUsageRef => true | _ => false end) true
         (mkConfig
            (mkWorld (@mkResource unit bool unit false (Some tt) 1 1 true
                                  (Some tt) 0 0) 0)
            false
            [mkThread CallUnref AtLock; mkThread CallUnrefCommandBuffer AtLock])
         [0; 1; 0; 0; 0; 0; 0; 1; 1; 1; 1; 1; 1]%nat = Ok cfg' /\
    forallb has_returned (threads cfg') = true /\
    tally told_to_free (threads cfg') = 1 /\
    freeGpuDataCalls (world cfg') = 1%nat /\
    wasDestroyed (res (world cfg')) = true.
Proof.
  destruct (racing_releases_dispose_once
              (fun _ _ removedRef =>
            match removedRef with kUsageRef => true | _ => false end) true
              (@mkResource unit bool unit false (Some tt) 1 1 true
                           (Some tt) 0 0)
              0%nat
              [mkThread CallUnref AtLock; mkThread CallUnrefCommandBuffer AtLock]
              [0; 1; 0; 0; 0; 0; 0; 1; 1; 1; 1; 1; 1]%nat)
    as (cfg' & Hexec & _ & _ & _ & Hdone).
  - discriminate.
  - reflexivity.
  - reflexivity.
  - reflexivity.
  - vm_compute. discriminate.
  - vm_compute. discriminate.
  - reflexivity.
  - assert (Hret : forallb has_returned (threads cfg') = true).
    { vm_compute in Hexec. injection Hexec as <-. reflexivity. }
    exists cfg'. split; [exact Hexec|]. split; [exact Hret|].
    destruct (Hdone Hret) as (_ & _ & c & Hlast & Htold & Hfree & Hgone).
    vm_compute in Hlast.
    destruct c; [discriminate Hlast|].
    split; [exact Htold|]. split; [exact Hfree | exact Hgone].
Defined.

(** The scenario on an entry that the cache has registered with itself when
    it granted the first usage reference, the cache taking back what is
    returned to it: every call returns, both counts end at zero, and the
    final release of the command buffer calls no teardown; the entry is
    still there. *)
Lemma usage_then_command_buffer_release_reclaimed :
  run (fun _ _ _ => true) true
      (mkWorld (@Resource_new unit bool unit tt true 0 0) 0)
      [OpRefCacheOnly; OpRegisterWithCache tt; OpRef; OpRefCommandBuffer;
       OpUnref; OpUnref; OpUnrefCommandBuffer] =
  Ok (mkWorld (@mkResource unit bool unit false (Some tt) 0 0 true
                           (Some tt) 0 0) 0) /\
  freeGpuDataCalls
    (mkWorld (@mkResource unit bool unit false (Some tt) 0 0 true
                          (Some tt) 0 0) 0) = 0%nat /\
  wasDestroyed (@mkResource unit bool unit false (Some tt) 0 0 true
                            (Some tt) 0 0) = false.
Proof. repeat split. Qed.

Lemma usage_then_command_buffer_release_witness :
  exists w6,
    run (fun _ _ _ => true) true
        (mkWorld (@Resource_new unit bool unit tt true 0 0) 0)
        [OpRefCacheOnly; OpRef; OpRefCommandBuffer; OpUnref; OpUnref;
         OpUnrefCommandBuffer] = Ok w6 /\
    freeGpuDataCalls w6 = 1%nat /\
    wasDestroyed (res w6) = true.
Proof.
  destruct (usage_then_command_buffer_release
              (fun _ _ _ => true) true
              (mkWorld (@Resource_new unit bool unit tt true 0 0) 0)
              eq_refl eq_refl eq_refl)
    as (w1 & w2 & w3 & w4 & w5 & w6 & _ & _ & _ & _ & _ & _ & _ & _ & _
        & _ & _ & _ & _ & _ & _ & _ & _ & _ & Hfree & Hgone & Hrun).
  exists w6. split; [exact Hrun|]. split; [exact Hfree | exact Hgone].
Defined.

(** At [INT32_MAX] [ref] succeeds and the usage count becomes [INT32_MIN],
    which is not the count plus 1. *)
Lemma ref_wraps_at_INT32_MAX :
  1 <= 2147483647 /\
  ref true (@mkResource unit bool unit false (Some tt) 2147483647 0 true None 0 0) =
  Ok (@mkResource unit bool unit false (Some tt) (-2147483648) 0 true None 0 0) /\
  -2147483648 <> 2147483647 + 1.
Proof. split; [lia|]. split; [reflexivity | lia]. Qed.

Lemma ref_requires_usage_ref_witness :
  0 <= 1 < Int32.max_signed /\
  ref true (@mkResource unit bool unit false (Some tt) 1 0 true None 0 0) =
  Ok (@mkResource unit bool unit false (Some tt) 2 0 true None 0 0).
Proof.
  assert (H : 0 <= 1 < Int32.max_signed) by (unfold Int32.max_signed; lia).
  split; [exact H|].
  exact (ref_requires_usage_ref
           true (@mkResource unit bool unit false (Some tt) 1 0 true None 0 0) H).
Defined.

Lemma removedFromCache_only_once_witness :
  removedFromCache (fun _ _ _ => true) true
    (mkWorld (@mkResource unit bool unit false (Some tt) 1 0 true (Some tt) 0 0) 0) =
  Ok (mkWorld (@mkResource unit bool unit true (Some tt) 1 0 true (Some tt) 0 0) 0) /\
  removedFromCache (fun _ _ _ => true) true
    (mkWorld (@mkResource unit bool unit true (Some tt) 2 0 true (Some tt) 0 0) 0) =
  AssertFail.
Proof.
  split; [reflexivity|].
  apply (removedFromCache_only_once
           (fun _ _ _ => true)
           (mkWorld (@mkResource unit bool unit false (Some tt) 1 0 true (Some tt) 0 0) 0)
           (mkWorld (@mkResource unit bool unit true (Some tt) 1 0 true (Some tt) 0 0) 0)
           eq_refl)
    with (ops := [OpRef]).
  reflexivity.
Defined.

(** At [INT32_MAX] [refCacheOnly] passes its assertion and the usage count
    becomes [INT32_MIN]. *)
Lemma refCacheOnly_wraps_at_INT32_MAX :
  0 <= 2147483647 /\
  refCacheOnly true
    (@mkResource unit bool unit false (Some tt) 2147483647 0 true None 0 0) =
  Ok (@mkResource unit bool unit false (Some tt) (-2147483648) 0 true None 0 0) /\
  -2147483648 <> 2147483647 + 1.
Proof. split; [lia|]. split; [reflexivity | lia]. Qed.

Lemma refCacheOnly_grants_first_ref_witness :
  0 <= 0 < Int32.max_signed /\
  refCacheOnly true (@Resource_new unit bool unit tt true 0 0) =
  Ok (@mkResource unit bool unit false (Some tt) 1 0 true None 0 0) /\
  ref true (@Resource_new unit bool unit tt true 0 0) = AssertFail.
Proof.
  assert (H : 0 <= 0 < Int32.max_signed) by (unfold Int32.max_signed; lia).
  split; [exact H|].
  exact (refCacheOnly_grants_first_ref
           true (@Resource_new unit bool unit tt true 0 0) H).
Defined.

(** At [INT32_MAX] [refCommandBuffer] makes the command-buffer count
    [INT32_MIN]. *)
Lemma refCommandBuffer_wraps_at_INT32_MAX :
  refCommandBuffer
    (@mkResource unit bool unit false (Some tt) 1 2147483647 true None 0 0) =
  @mkResource unit bool unit false (Some tt) 1 (-2147483648) true None 0 0 /\
  -2147483648 <> 2147483647 + 1.
Proof. split; [reflexivity | lia]. Qed.

Lemma refCommandBuffer_has_no_precondition_witness :
  Int32.min_signed <= 0 < Int32.max_signed /\
  refCommandBuffer (@Resource_new unit bool unit tt true 0 0) =
  @mkResource unit bool unit false (Some tt) 0 1 true None 0 0 /\
  unrefCommandBuffer (fun _ _ _ => true) true
    (mkWorld (@Resource_new unit bool unit tt true 0 0) 0) = AssertFail.
Proof.
  assert (H : Int32.min_signed <= 0 < Int32.max_signed)
    by (unfold Int32.min_signed, Int32.max_signed; lia).
  split; [exact H|].
  destruct (refCommandBuffer_has_no_precondition
              (fun _ _ _ => true)
              (mkWorld (@Resource_new unit bool unit tt true 0 0) 0) H)
    as [Href Hunref].
  split; [exact Href|]. apply Hunref. reflexivity.
Defined.

(** The sequence of [2^31] calls of [refCommandBuffer] contains no release
    at all, no call in it fails, and it leaves the command-buffer count at
    [INT32_MIN]. *)
Lemma counter_negative_after_2_31_acquires :
  exists w',
    releases_matched
      0 0 (repeat (@OpRefCommandBuffer bool unit) (Z.to_nat 2147483648)) = true /\
    run (fun _ _ _ => true) true
        (mkWorld (@Resource_new unit bool unit tt true 0 0) 0)
        (repeat OpRefCommandBuffer (Z.to_nat 2147483648)) = Ok w' /\
    fCommandBufferRefCnt (res w') = -2147483648.
Proof.
  destruct (run_repeat_refCommandBuffer
              (fun _ _ _ => true) true (Z.to_nat 2147483648)
              (mkWorld (@Resource_new unit bool unit tt true 0 0) 0))
    as (w' & Hrun & _ & Hcnt).
  { reflexivity. }
  { unfold Int32.in_range, Int32.min_signed, Int32.max_signed.
    change (fCommandBufferRefCnt
              (res (mkWorld (@Resource_new unit bool unit tt true 0 0) 0)))
      with 0. lia. }
  exists w'. split; [apply releases_matched_repeat_refCommandBuffer|].
  split; [exact Hrun|].
  rewrite Hcnt. rewrite Z2Nat.id by lia. reflexivity.
Qed.

Lemma counters_stay_nonnegative_witness :
  run (fun _ _ _ => true) true
      (mkWorld (@Resource_new unit bool unit tt true 0 0) 0)
      [OpRefCacheOnly; OpRef; OpRefCommandBuffer; OpUnref] =
  Ok (mkWorld (@mkResource unit bool unit false (Some tt) 1 1 true None 0 0) 0) /\
  0 <= 1 <= Int32.max_signed /\
  0 <= 1 <= Int32.max_signed.
Proof.
  split; [reflexivity|].
  apply (counters_stay_nonnegative
           (fun _ _ _ => true) true
           (mkWorld (@Resource_new unit bool unit tt true 0 0) 0)
           (mkWorld (@mkResource unit bool unit false (Some tt) 1 1 true None 0 0) 0)
           [OpRefCacheOnly; OpRef; OpRefCommandBuffer; OpUnref]
           [OpUnref; OpUnrefCommandBuffer]).
  - unfold counts_fit, Int32.max_signed. simpl. lia.
  - reflexivity.
  - reflexivity.
  - reflexivity.
Defined.

Lemma acquire_release_keep_cache_bookkeeping_witness :
  step (fun _ _ _ => true) true
       (mkWorld (@mkResource unit bool unit false (Some tt) 1 0 true None 3 9) 0)
       OpUnref =
  Ok (mkWorld (@mkResource unit bool unit false None 0 0 true None 3 9) 1) /\
  3 = 3 /\ 9 = 9.
Proof.
  split; [reflexivity|].
  apply (acquire_release_keep_cache_bookkeeping
           (fun _ _ _ => true) true
           (mkWorld (@mkResource unit bool unit false (Some tt) 1 0 true None 3 9) 0)
           (mkWorld (@mkResource unit bool unit false None 0 0 true None 3 9) 1)
           OpUnref).
  - left. reflexivity.
  - reflexivity.
Defined.

(** A second call of [setKey] is accepted like the first, and [key] then
    returns the second key. *)
Lemma setKey_twice_replaces_key :
  run (fun _ _ _ => true) true
      (with_res (setKey true (@Resource_new unit bool unit tt false 0 0))
                (mkWorld (@Resource_new unit bool unit tt false 0 0) 0))
      [OpSetKey false] =
  Ok (mkWorld (@Resource_new unit bool unit tt false 0 0) 0) /\
  key (@Resource_new unit bool unit tt false 0 0) = false /\
  false <> true.
Proof. split; [reflexivity|]. split; [reflexivity | discriminate]. Qed.

Lemma key_is_kept_until_next_setKey_witness :
  run (fun _ _ _ => true) true
      (with_res (setKey true (@Resource_new unit bool unit tt false 0 0))
                (mkWorld (@Resource_new unit bool unit tt false 0 0) 0))
      [OpRefCacheOnly; OpSetTimestamp 7; OpUnref] =
  Ok (mkWorld (@mkResource unit bool unit false None 0 0 true None 0 7) 1) /\
  key (@mkResource unit bool unit false None 0 0 true None 0 7) = true.
Proof.
  split; [reflexivity|].
  apply (key_is_kept_until_next_setKey
           (fun _ _ _ => true) true
           (mkWorld (@Resource_new unit bool unit tt false 0 0) 0)
           (mkWorld (@mkResource unit bool unit false None 0 0 true None 0 7) 1)
           true [OpRefCacheOnly; OpSetTimestamp 7; OpUnref]).
  - reflexivity.
  - reflexivity.
Defined.

(** ** Concrete runs of the further properties *)

Lemma ref_unref_round_trip_witness :
  1 <= 2147483647 <= Int32.max_signed /\
  exists r1,
    ref true (@mkResource unit bool unit false (Some tt) 2147483647 0 true
                          None 0 0) = Ok r1 /\
    unref (fun _ _ _ => true) true
          (with_res r1
             (mkWorld (@mkResource unit bool unit false (Some tt) 2147483647
                                   0 true None 0 0) 0)) =
    Ok (mkWorld (@mkResource unit bool unit false (Some tt) 2147483647 0 true
                             None 0 0) 0).
Proof.
  assert (H : 1 <= 2147483647 <= Int32.max_signed)
    by (unfold Int32.max_signed; lia).
  split; [exact H|].
  exact (ref_unref_round_trip
           (fun _ _ _ => true) true
           (mkWorld (@mkResource unit bool unit false (Some tt) 2147483647 0
                                 true None 0 0) 0) H).
Defined.

Lemma refCommandBuffer_unrefCommandBuffer_round_trip_witness :
  1 <= 1 <= Int32.max_signed /\
  unrefCommandBuffer (fun _ _ _ => true) true
    (with_res
       (refCommandBuffer
          (@mkResource unit bool unit false (Some tt) 0 1 true None 0 0))
       (mkWorld (@mkResource unit bool unit false (Some tt) 0 1 true None 0 0)
                0)) =
  Ok (mkWorld (@mkResource unit bool unit false (Some tt) 0 1 true None 0 0) 0).
Proof.
  assert (H : 1 <= 1 <= Int32.max_signed) by (unfold Int32.max_signed; lia).
  split; [exact H|].
  exact (refCommandBuffer_unrefCommandBuffer_round_trip
           (fun _ _ _ => true) true
           (mkWorld (@mkResource unit bool unit false (Some tt) 0 1 true None
                                 0 0) 0) H).
Defined.

Lemma teardown_only_from_last_release_witness :
  step (fun _ _ _ => true) true
       (mkWorld (@mkResource unit bool unit false (Some tt) 1 0 true None 0 0) 0)
       OpUnref =
  Ok (mkWorld (@mkResource unit bool unit false None 0 0 true None 0 0) 1) /\
  1%nat = 1%nat /\
  (@OpUnref bool unit = OpUnref /\ 1 = 1 /\ 0 = 0 \/
   @OpUnref bool unit = OpUnrefCommandBuffer /\ 0 = 1 /\ 0 = 0 \/
   @OpUnref bool unit = OpRemovedFromCache).
Proof.
  split; [reflexivity|].
  apply (teardown_only_from_last_release
           (fun _ _ _ => true) true
           (mkWorld (@mkResource unit bool unit false (Some tt) 1 0 true None
                                 0 0) 0)
           (mkWorld (@mkResource unit bool unit false None 0 0 true None 0 0) 1)
           OpUnref).
  - reflexivity.
  - simpl. discriminate.
Defined.

Lemma debug_and_release_builds_agree_witness :
  run (fun _ _ _ => true) false
      (mkWorld (@Resource_new unit bool unit tt true 0 0) 0)
      [OpRefCacheOnly; OpRef; OpUnref; OpRefCommandBuffer] =
  Ok (mkWorld (@mkResource unit bool unit false (Some tt) 1 1 true None 0 0) 0).
Proof.
  apply (debug_and_release_builds_agree (fun _ _ _ => true)).
  - reflexivity.
  - reflexivity.
Defined.

Lemma counters_count_outstanding_references_witness :
  run (fun _ _ _ => true) true
      (mkWorld (@Resource_new unit bool unit tt true 0 0) 0)
      [OpRefCacheOnly; OpRef; OpRefCommandBuffer; OpUnref] =
  Ok (mkWorld (@mkResource unit bool unit false (Some tt) 1 1 true None 0 0) 0) /\
  1 = 0 + net_usage [@OpRefCacheOnly bool unit; OpRef; OpRefCommandBuffer;
                     OpUnref] /\
  1 = 0 + net_commandBuffer [@OpRefCacheOnly bool unit; OpRef;
                             OpRefCommandBuffer; OpUnref].
Proof.
  split; [reflexivity|].
  apply (counters_count_outstanding_references
           (fun _ _ _ => true) true
           [OpRefCacheOnly; OpRef; OpRefCommandBuffer; OpUnref]
           (mkWorld (@Resource_new unit bool unit tt true 0 0) 0)
           (mkWorld (@mkResource unit bool unit false (Some tt) 1 1 true None
                                 0 0) 0)).
  - unfold counts_fit, Int32.max_signed. simpl. lia.
  - reflexivity.
  - reflexivity.
  - reflexivity.
Defined.

Lemma debug_build_detects_unmatched_release_witness :
  run (fun _ _ _ => true) true
      (mkWorld (@Resource_new unit bool unit tt true 0 0) 0)
      [OpRefCommandBuffer; OpUnrefCommandBuffer] =
  Ok (mkWorld (@mkResource unit bool unit false None 0 0 true None 0 0) 1) /\
  releases_matched 0 0 [@OpRefCommandBuffer bool unit; OpUnrefCommandBuffer] =
  true.
Proof.
  split; [reflexivity|].
  apply (debug_build_detects_unmatched_release
           (fun _ _ _ => true)
           [OpRefCommandBuffer; OpUnrefCommandBuffer]
           (mkWorld (@Resource_new unit bool unit tt true 0 0) 0)
           (mkWorld (@mkResource unit bool unit false None 0 0 true None 0 0) 1)).
  - unfold counts_fit, Int32.max_signed. simpl. lia.
  - reflexivity.
  - reflexivity.
Defined.

Lemma first_usage_ref_needs_refCacheOnly_witness :
  run (fun _ _ _ => true) true
      (mkWorld (@Resource_new unit bool unit tt true 0 0) 0)
      [OpRefCommandBuffer; OpSetTimestamp 3] =
  Ok (mkWorld (@mkResource unit bool unit false (Some tt) 0 1 true None 0 3) 0) /\
  0 = 0 /\
  forallb (fun op => negb (is_ref_or_unref op))
          [@OpRefCommandBuffer bool unit; OpSetTimestamp 3] = true.
Proof.
  split; [reflexivity|].
  apply (first_usage_ref_needs_refCacheOnly
           (fun _ _ _ => true)
           [OpRefCommandBuffer; OpSetTimestamp 3]
           (mkWorld (@Resource_new unit bool unit tt true 0 0) 0)
           (mkWorld (@mkResource unit bool unit false (Some tt) 0 1 true None
                                 0 3) 0)).
  - reflexivity.
  - reflexivity.
  - reflexivity.
Defined.

Lemma getters_return_last_store_witness :
  run (fun _ _ _ => true) true
      (mkWorld (@Resource_new unit bool unit tt true 0 0) 0)
      [OpSetKey false; OpRefCacheOnly; OpSetTimestamp 7; OpStoreCacheIndex 2;
       OpSetTimestamp 9] =
  Ok (mkWorld (@mkResource unit bool unit false (Some tt) 1 0 false None 2 9) 0) /\
  false = false /\ 9 = 9 /\ 2 = 2.
Proof.
  split; [reflexivity|].
  apply (getters_return_last_store
           (fun _ _ _ => true) true
           [OpSetKey false; OpRefCacheOnly; OpSetTimestamp 7;
            OpStoreCacheIndex 2; OpSetTimestamp 9]
           (mkWorld (@Resource_new unit bool unit tt true 0 0) 0)
           (mkWorld (@mkResource unit bool unit false (Some tt) 1 0 false None
                                 2 9) 0)).
  reflexivity.
Defined.

Lemma locked_blocks_are_mutually_exclusive_witness :
  exists cfg',
    exec (fun _ _ _ => true) true
         (mkConfig
            (mkWorld (@mkResource unit bool unit false (Some tt) 1 1 true
                                  None 0 0) 0)
            false
            [mkThread CallUnref AtLock; mkThread CallUnrefCommandBuffer AtLock])
         [0; 1; 0; 1]%nat = Ok cfg' /\
    threads cfg' !! 0%nat = Some (mkThread CallUnref AtFetchAdd) /\
    threads cfg' !! 1%nat = Some (mkThread CallUnrefCommandBuffer AtLock) /\
    fUnrefMutex cfg' = true.
Proof.
  eexists. split; [vm_compute; reflexivity|].
  split; [reflexivity|]. split; [reflexivity|].
  apply (locked_blocks_are_mutually_exclusive
           (fun _ _ _ => true) true
           (mkWorld (@mkResource unit bool unit false (Some tt) 1 1 true None
                                 0 0) 0)
           [mkThread CallUnref AtLock; mkThread CallUnrefCommandBuffer AtLock]
           [0; 1; 0; 1]%nat _ eq_refl eq_refl
           0%nat 0%nat (mkThread CallUnref AtFetchAdd)
           (mkThread CallUnref AtFetchAdd) eq_refl eq_refl eq_refl eq_refl).
Defined.

Lemma counters_equal_pending_releases_witness :
  exists cfg',
    exec (fun _ _ _ => true) true
         (mkConfig
            (mkWorld (@mkResource unit bool unit false (Some tt) 2 1 true
                                  None 0 0) 0)
            false
            [mkThread CallUnref AtLock; mkThread CallUnrefCommandBuffer AtLock;
             mkThread CallUnref AtLock])
         [2; 2; 2; 0; 2; 2; 1]%nat = Ok cfg' /\
    fUsageRefCnt (res (world cfg')) = 1 /\
    fCommandBufferRefCnt (res (world cfg')) = 1.
Proof.
  eexists. split; [vm_compute; reflexivity|].
  apply (counters_equal_pending_releases
           (fun _ _ _ => true) true
           (@mkResource unit bool unit false (Some tt) 2 1 true None 0 0)
           0%nat
           [mkThread CallUnref AtLock; mkThread CallUnrefCommandBuffer AtLock;
            mkThread CallUnref AtLock]
           [2; 2; 2; 0; 2; 2; 1]%nat).
  - discriminate.
  - reflexivity.
  - reflexivity.
  - reflexivity.
  - vm_compute. discriminate.
  - vm_compute. discriminate.
  - reflexivity.
Defined.

Lemma teardown_runs_after_last_access_witness :
  exists cfg',
    exec (fun _ _ _ => true) true
         (mkConfig
            (mkWorld (@mkResource unit bool unit false (Some tt) 1 1 true
                                  None 0 0) 0)
            false
            [mkThread CallUnref AtLock; mkThread CallUnrefCommandBuffer AtLock])
         [0; 0; 0; 0; 0; 1; 1; 1; 1; 1]%nat = Ok cfg' /\
    threads cfg' !! 1%nat = Some (mkThread CallUnrefCommandBuffer (AtDispose true)) /\
    threads cfg' !! 0%nat = Some (mkThread CallUnref (AtDispose false)) /\
    fUnrefMutex cfg' = false /\
    forall (j : nat) (t' : Thread),
      threads cfg' !! j = Some t' -> touches_resource t' = false.
Proof.
  eexists. split; [vm_compute; reflexivity|].
  split; [reflexivity|]. split; [reflexivity|].
  apply (teardown_runs_after_last_access
           (fun _ _ _ => true) true
           (@mkResource unit bool unit false (Some tt) 1 1 true None 0 0)
           0%nat
           [mkThread CallUnref AtLock; mkThread CallUnrefCommandBuffer AtLock]
           [0; 0; 0; 0; 0; 1; 1; 1; 1; 1]%nat _ 1%nat
           (mkThread CallUnrefCommandBuffer (AtDispose true))).
  - discriminate.
  - reflexivity.
  - reflexivity.
  - reflexivity.
  - vm_compute. discriminate.
  - vm_compute. discriminate.
  - reflexivity.
  - reflexivity.
  - reflexivity.
Defined.

Lemma racing_releases_are_serializable_witness :
  exists cfg',
    exec (fun _ _ _ => true) true
         (mkConfig
            (mkWorld (@mkResource unit bool unit false (Some tt) 1 1 true
                                  None 0 0) 0)
            false
            [mkThread CallUnref AtLock; mkThread CallUnrefCommandBuffer AtLock])
         [1; 0; 1; 1; 0; 1; 1; 0; 0; 0; 1; 0; 0; 0]%nat = Ok cfg' /\
    run (fun _ _ _ => true) true
        (mkWorld (@mkResource unit bool unit false (Some tt) 1 1 true None 0 0)
                 0)
        [OpUnrefCommandBuffer; OpUnref] = Ok (world cfg') /\
    freeGpuDataCalls (world cfg') = 1%nat.
Proof.
  eexists. split; [vm_compute; reflexivity|].
  split; [|reflexivity].
  apply (racing_releases_are_serializable
           (fun _ _ _ => true) true
           (@mkResource unit bool unit false (Some tt) 1 1 true None 0 0)
           0%nat
           [mkThread CallUnref AtLock; mkThread CallUnrefCommandBuffer AtLock]
           [1; 0; 1; 1; 0; 1; 1; 0; 0; 0; 1; 0; 0; 0]%nat).
  - discriminate.
  - reflexivity.
  - reflexivity.
  - reflexivity.
  - vm_compute. discriminate.
  - vm_compute. discriminate.
  - reflexivity.
  - reflexivity.
Defined.

